(** * wepadel-coach-backend: the /coach/chat relay of [server.js]

    A shallow embedding of the two revisions of [server.js] (an Express
    handler that forwards a chat request to the Gemini REST API) and the
    properties of its request shaping and reply extraction.

    JavaScript values are the values [JSON.parse] can produce plus
    [undefined]; strings are sequences of UTF-16 code units; an exception
    is an explicit [Throw]; the one asynchronous effect of the handler,
    the outbound [fetch], is a constructor of the handler's program tree. *)

From Stdlib Require Import Ascii String DecimalString SpecFloat.
From Stdlib Require Import ZArith NArith Bool List Lia.
Import ListNotations.

Local Open Scope Z_scope.

#[local] Set Warnings "-register-all".

(** ** Strings *)

(** A JavaScript string: its UTF-16 code units. *)
Definition code_unit := N.
Definition jsstring := list code_unit.

(** An ASCII literal of the source as a JavaScript string. *)
Definition lit (s : string) : jsstring :=
  map N_of_ascii (list_ascii_of_string s).

Fixpoint jsstring_eqb (a b : jsstring) : bool :=
  match a, b with
  | [], [] => true
  | x :: a', y :: b' => N.eqb x y && jsstring_eqb a' b'
  | _, _ => false
  end.

(** ECMAScript WhiteSpace and LineTerminator code points, the ones
    [String.prototype.trim] strips. *)
Definition is_whitespace (c : code_unit) : bool :=
  existsb (N.eqb c)
    [ 0x9; 0xA; 0xB; 0xC; 0xD; 0x20; 0xA0; 0x1680; 0x2028; 0x2029;
      0x202F; 0x205F; 0x3000; 0xFEFF ]%N
  || (N.leb 0x2000 c && N.leb c 0x200A).

Fixpoint trimStart (s : jsstring) : jsstring :=
  match s with
  | [] => []
  | c :: s' => if is_whitespace c then trimStart s' else s
  end.

Definition trimEnd (s : jsstring) : jsstring := rev (trimStart (rev s)).

(** [s.trim()] *)
Definition trim (s : jsstring) : jsstring := trimEnd (trimStart s).

(** ** Values *)

(** A number is an IEEE 754 binary64. *)
Definition number := spec_float.

Inductive value :=
| VUndefined
| VNull
| VBool (b : bool)
| VNumber (n : number)
| VString (s : jsstring)
| VArray (elems : list value)
| VObject (props : list (jsstring * value)).

(** Own property lookup of a plain object. *)
Fixpoint own (props : list (jsstring * value)) (k : jsstring) : option value :=
  match props with
  | [] => None
  | (k', v) :: rest => if jsstring_eqb k' k then Some v else own rest k
  end.

Inductive js_type := TUndefined | TObject | TBoolean | TNumber | TString.

Definition js_type_eqb (a b : js_type) : bool :=
  match a, b with
  | TUndefined, TUndefined | TObject, TObject | TBoolean, TBoolean
  | TNumber, TNumber | TString, TString => true
  | _, _ => false
  end.

(** [typeof v] *)
Definition typeof (v : value) : js_type :=
  match v with
  | VUndefined => TUndefined
  | VNull => TObject
  | VBool _ => TBoolean
  | VNumber _ => TNumber
  | VString _ => TString
  | VArray _ | VObject _ => TObject
  end.

(** ToBoolean: what [!v] negates. *)
Definition truthy (v : value) : bool :=
  match v with
  | VUndefined | VNull => false
  | VBool b => b
  | VNumber (S754_zero _) | VNumber S754_nan => false
  | VNumber _ => true
  | VString s => match s with [] => false | _ => true end
  | VArray _ | VObject _ => true
  end.

Definition nullish (v : value) : bool :=
  match v with VUndefined | VNull => true | _ => false end.

(** [a ?? b] *)
Definition coalesce (a b : value) : value := if nullish a then b else a.

(** [v === "s"] against a string literal. *)
Definition strict_eq_string (v : value) (s : jsstring) : bool :=
  match v with VString s' => jsstring_eqb s' s | _ => false end.

(** The property names the source reads as data.  None of them is an
    index, [length], or a member of a built-in prototype, so on anything
    but a plain object carrying it as an own property the read gives
    [undefined]. *)
Inductive field :=
| coachPersona | playerProfile | recentMatchesSummary | constraints
| turns | role | text
| candidates | content | parts | finishReason | usageMetadata
| userMessage | contextPack | thread.

Definition field_name (f : field) : jsstring :=
  lit match f with
      | coachPersona => "coachPersona" | playerProfile => "playerProfile"
      | recentMatchesSummary => "recentMatchesSummary"
      | constraints => "constraints"
      | turns => "turns" | role => "role" | text => "text"
      | candidates => "candidates" | content => "content" | parts => "parts"
      | finishReason => "finishReason" | usageMetadata => "usageMetadata"
      | userMessage => "userMessage" | contextPack => "contextPack"
      | thread => "thread"
      end.

(** [v.f] on a value that is not nullish (the source never reads a
    member of a nullish value without [?.]). *)
Definition member (v : value) (f : field) : value :=
  match v with
  | VObject props =>
      match own props (field_name f) with Some x => x | None => VUndefined end
  | _ => VUndefined
  end.

(** [v?.f] *)
Definition opt_member (v : value) (f : field) : value :=
  if nullish v then VUndefined else member v f.

(** [v?.[0]]: the first element of an array, the first code unit of a
    string, the own property ["0"] of a plain object. *)
Definition opt_first (v : value) : value :=
  match v with
  | VArray (x :: _) => x
  | VString (c :: _) => VString [c]
  | VObject props =>
      match own props (lit "0") with Some x => x | None => VUndefined end
  | _ => VUndefined
  end.

(** ** Exceptions *)

Inductive exn := TypeError | SyntaxError | FetchFailed.

Inductive result (A : Type) :=
| Ok (a : A)
| Throw (e : exn).
Arguments Ok {A} a.
Arguments Throw {A} e.

Definition bind {A B} (r : result A) (k : A -> result B) : result B :=
  match r with Ok a => k a | Throw e => Throw e end.

Notation "x <- r ;; k" := (bind r (fun x => k))
  (at level 61, r at next level, right associativity).

(** The callback of [Array.prototype.map] runs on the elements in index
    order; the first exception ends the call. *)
Fixpoint mapM {A B} (f : A -> result B) (l : list A) : result (list B) :=
  match l with
  | [] => Ok []
  | x :: l' => y <- f x ;; ys <- mapM f l' ;; Ok (y :: ys)
  end.

(** [arr.slice(start)] on a sequence: a negative [start] counts from the
    end and is clamped at the first element. *)
Definition slice {A} (start : Z) (l : list A) : list A :=
  let len := Z.of_nat (length l) in
  let k := if start <? 0 then Z.max (len + start) 0 else Z.min start len in
  skipn (Z.to_nat k) l.

(** [v.slice(start)] as a method call: arrays and strings have the
    method; on every other value [v.slice] is [undefined] or, for an own
    property of a parsed object, not callable. *)
Definition slice_method (v : value) (start : Z) : result value :=
  match v with
  | VArray l => Ok (VArray (slice start l))
  | VString s => Ok (VString (slice start s))
  | _ => Throw TypeError
  end.

(** [v.map(f)] as a method call: only arrays have it. *)
Definition map_method {B} (v : value) (f : value -> result B)
  : result (list B) :=
  match v with
  | VArray l => mapM f l
  | _ => Throw TypeError
  end.

(** Joining converted elements with a separator. *)
Fixpoint join_strings (sep : jsstring) (l : list jsstring) : jsstring :=
  match l with
  | [] => []
  | [s] => s
  | s :: l' => s ++ sep ++ join_strings sep l'
  end.

(** ** Data of the outbound conversation and of the reply *)

Definition nl : jsstring := [0xA]%N.

(** The template literal of [buildSystemBlock] with its four
    substitutions already converted. *)
Definition systemTemplate (persona profile summary constr : jsstring)
  : jsstring :=
  nl ++ persona ++ nl ++
  nl ++ profile ++ nl ++
  nl ++ lit "Recent matches:" ++ nl ++
  summary ++ nl ++
  nl ++ lit "Constraints:" ++ nl ++
  constr ++ nl.

(** A turn of the outbound conversation: [{ role, parts: [{ text }] }]. *)
Record part := { text_of : value }.
Record turn := { role_of : jsstring; parts_of : list part }.

(** [t?.role === "user" ? "user" : "model"] *)
Definition turnRole (t : value) : jsstring :=
  if strict_eq_string (opt_member t role) (lit "user")
  then lit "user" else lit "model".

(** The fallback literals: the later revision spells the apostrophe
    U+2019, the earlier one carries it as the three characters
    U+00E2 U+20AC U+2122. *)
Definition fallbackReply : jsstring :=
  lit "I" ++ [0x2019]%N ++
  lit "m here. Tell me what you want to improve today.".

Definition fallbackReply_earlier : jsstring :=
  lit "I" ++ [0xE2; 0x20AC; 0x2122]%N ++
  lit "m here. Tell me what you want to improve today.".

(** [json?.candidates?.[0]?.content?.parts] *)
Definition candidateParts (json : value) : value :=
  opt_member (opt_member (opt_first (opt_member json candidates)) content)
    parts.

(** [(p) => p?.text ?? ''] *)
Definition partText (p : value) : value :=
  coalesce (opt_member p text) (VString []).

(** ** The handler's world *)

(** [process.env]: a variable is a string or is not set. *)
Record env := { GEMINI_API_KEY : option jsstring; GEMINI_MODEL : option jsstring }.

Definition env_value (o : option jsstring) : value :=
  match o with Some s => VString s | None => VUndefined end.

(** What the handler reads of the request: the parsed body and
    [req.query.debug]. *)
Record request := { body : value; query_debug : value }.

Record generationConfig :=
  { temperature : number; maxOutputTokens : Z;
    responseMimeType : option jsstring }.

(** The object handed to [JSON.stringify] for the outbound POST. *)
Record payload :=
  { systemInstruction : jsstring;
    contents : list turn;
    config : generationConfig }.

(** The double written [0.7]. *)
Definition temperature_0_7 : number := S754_finite false 6305039478318694 (-53).

(** The upstream HTTP response: its status and its body text.  [r.ok] is
    the Fetch standard's test of the status. *)
Record upstream := { status : Z; rawText : jsstring }.

Definition ok (r : upstream) : bool := (200 <=? status r) && (status r <=? 299).

(** How the awaited exchange ends: the fetch (or the reading of the body)
    rejects, or a response with its body arrives. *)
Inductive outcome := Rejected | Responded (r : upstream).

(** What [res.status(c).json(b)] sends. *)
Inductive reply_body :=
| ErrorBody (error : jsstring)
| GatewayBody (error : jsstring) (upstream_status : Z) (detail : jsstring)
| ReplyBody (reply : jsstring)
| DebugBody (reply : jsstring) (model : jsstring)
    (finish : value) (usage : value) (raw : value).

Record response := { code : Z; sent : reply_body }.

(** The handler as a program: it sends a response, throws, or awaits one
    outbound POST and goes on with what came back. *)
Inductive prog :=
| Respond (r : response)
| Raise (e : exn)
| Fetch (url : jsstring) (p : payload) (k : outcome -> prog).

Definition run {A} (r : result A) (k : A -> prog) : prog :=
  match r with Ok a => k a | Throw e => Raise e end.

Notation "x <~ r ;; k" := (run r (fun x => k))
  (at level 61, r at next level, right associativity).

(** [try { ... } catch (e) { return res.status(500).json(...) }] around
    the whole body, the awaited part included. *)
Fixpoint try_catch (p : prog) (handler : exn -> response) : prog :=
  match p with
  | Respond r => Respond r
  | Raise e => Respond (handler e)
  | Fetch url b k => Fetch url b (fun o => try_catch (k o) handler)
  end.

Definition unexpected (_ : exn) : response :=
  {| code := 500; sent := ErrorBody (lit "Unexpected error") |}.

Definition endpoint (model apiKey : jsstring) : jsstring :=
  lit "https://generativelanguage.googleapis.com/v1beta/models/" ++ model ++
  lit ":generateContent?key=" ++ apiKey.

Definition userTurn (userMessage : value) : turn :=
  {| role_of := lit "user"; parts_of := [ {| text_of := userMessage |} ] |}.

Section Runtime.

(** Number::toString, the shortest round-trip decimal of a binary64, is
    the engine's; the source only ever prints numbers. *)
Variable Number_toString : number -> jsstring.

(** [JSON.parse], [None] when it throws a SyntaxError. *)
Variable JSON_parse : jsstring -> option value.

(** ToString, as [String(v)] and a template literal apply it.  A plain
    object prints through [Object.prototype.toString] unless it has an own
    [toString] property: a parsed value is never callable, the inherited
    [valueOf] returns the object itself, and the conversion throws.  An
    array prints through [join(",")], where [undefined] and [null]
    elements print as nothing. *)
Fixpoint ToString (v : value) : result jsstring :=
  match v with
  | VUndefined => Ok (lit "undefined")
  | VNull => Ok (lit "null")
  | VBool true => Ok (lit "true")
  | VBool false => Ok (lit "false")
  | VNumber n => Ok (Number_toString n)
  | VString s => Ok s
  | VArray l =>
      ss <- (fix elems (l : list value) : result (list jsstring) :=
               match l with
               | [] => Ok []
               | x :: l' =>
                   s <- (if nullish x then Ok [] else ToString x) ;;
                   ss <- elems l' ;;
                   Ok (s :: ss)
               end) l ;;
      Ok (join_strings (lit ",") ss)
  | VObject props =>
      match own props (lit "toString") with
      | Some _ => Throw TypeError
      | None => Ok (lit "[object Object]")
      end
  end.

(** What an element contributes to [join]: nothing when it is
    [undefined] or [null], its conversion otherwise. *)
Definition element_text (x : value) : result jsstring :=
  if nullish x then Ok [] else ToString x.

(** [arr.join(sep)] on an array of values. *)
Definition join (sep : jsstring) (l : list value) : result jsstring :=
  ss <- mapM element_text l ;;
  Ok (join_strings sep ss).


(** ** The shared helpers of both revisions *)

Definition buildSystemBlock (contextPack : value) : result jsstring :=
  let coachPersona := coalesce (opt_member contextPack coachPersona) (VString []) in
  let playerProfile := coalesce (opt_member contextPack playerProfile) (VString []) in
  let recentMatchesSummary :=
    coalesce (opt_member contextPack recentMatchesSummary) (VString []) in
  let constraints := coalesce (opt_member contextPack constraints) (VString []) in
  s1 <- ToString coachPersona ;;
  s2 <- ToString playerProfile ;;
  s3 <- ToString recentMatchesSummary ;;
  s4 <- ToString constraints ;;
  Ok (trim (systemTemplate s1 s2 s3 s4)).

(** One substitution of the template: [contextPack?.f ?? ''] as the
    template literal converts it. *)
Definition sectionText (contextPack : value) (f : field) : result jsstring :=
  ToString (coalesce (opt_member contextPack f) (VString [])).

(** [String(t?.text ?? '')] *)
Definition turnText (t : value) : result jsstring :=
  ToString (coalesce (opt_member t text) (VString [])).

(** The callback of [normalizeThread]: the role is computed first, then
    the text is converted. *)
Definition normalizeTurn (t : value) : result turn :=
  let r := turnRole t in
  s <- turnText t ;;
  Ok {| role_of := r; parts_of := [ {| text_of := VString s |} ] |}.

Definition normalizeThread (thread : value) : result (list turn) :=
  kept <- slice_method (coalesce (opt_member thread turns) (VArray [])) (-10) ;;
  map_method kept normalizeTurn.

(** The later revision's [extractReply]. *)
Definition extractReply (json : value) : result jsstring :=
  let parts := coalesce (candidateParts json) (VArray []) in
  texts <- map_method parts (fun p => Ok (partText p)) ;;
  text <- join [] texts ;;
  Ok (if truthy (VString text) && (0 <? Z.of_nat (length (trim text)))
      then trim text
      else fallbackReply).

(** The earlier revision's inline expression
    [json?.candidates?.[0]?.content?.parts?.map(...).join('') || fallback]:
    a nullish [parts] short-circuits the whole chain to [undefined]. *)
Definition inlineReply (json : value) : result jsstring :=
  let parts := candidateParts json in
  if nullish parts then Ok fallbackReply_earlier
  else
    texts <- map_method parts (fun p => Ok (partText p)) ;;
    text <- join [] texts ;;
    Ok (if truthy (VString text) then text else fallbackReply_earlier).


(** ** The handlers of [POST /coach/chat] *)

Definition model_of (e : env) : jsstring :=
  match GEMINI_MODEL e with Some s => s | None => lit "gemini-2.5-flash" end.

(** The earlier revision. *)
Definition coach_chat_earlier (e : env) (req : request) : prog :=
  try_catch
    (let apiKey := env_value (GEMINI_API_KEY e) in
     if negb (truthy apiKey) then
       Respond {| code := 500; sent := ErrorBody (lit "Missing GEMINI_API_KEY") |}
     else
     let b := coalesce (body req) (VObject []) in
     let userMessage := member b userMessage in
     let contextPack := member b contextPack in
     let thread := member b thread in
     if negb (truthy userMessage) || negb (js_type_eqb (typeof userMessage) TString) then
       Respond {| code := 400; sent := ErrorBody (lit "Missing or invalid userMessage") |}
     else
     if negb (truthy contextPack) || negb (js_type_eqb (typeof contextPack) TObject) then
       Respond {| code := 400; sent := ErrorBody (lit "Missing or invalid contextPack") |}
     else
     systemBlock <~ buildSystemBlock contextPack ;;
     turns <~ normalizeThread thread ;;
     let model := model_of e in
     key <~ ToString apiKey ;;
     let url := endpoint model key in
     let body :=
       {| systemInstruction := systemBlock;
          contents := turns ++ [userTurn userMessage];
          config := {| temperature := temperature_0_7;
                       maxOutputTokens := 600;
                       responseMimeType := None |} |} in
     Fetch url body (fun o =>
       match o with
       | Rejected => Raise FetchFailed
       | Responded r =>
           if negb (ok r) then
             let detail := rawText r in
             Respond {| code := 502;
                        sent := GatewayBody (lit "Gemini call failed") (status r) detail |}
           else
           match JSON_parse (rawText r) with
           | None => Raise SyntaxError
           | Some json =>
               reply <~ inlineReply json ;;
               Respond {| code := 200; sent := ReplyBody reply |}
           end
       end))
    unexpected.

(** The later revision. *)
Definition coach_chat_later (e : env) (req : request) : prog :=
  try_catch
    (let apiKey := env_value (GEMINI_API_KEY e) in
     if negb (truthy apiKey) then
       Respond {| code := 500; sent := ErrorBody (lit "Missing GEMINI_API_KEY") |}
     else
     let b := coalesce (body req) (VObject []) in
     let userMessage := member b userMessage in
     let contextPack := member b contextPack in
     let thread := member b thread in
     if negb (truthy userMessage) || negb (js_type_eqb (typeof userMessage) TString) then
       Respond {| code := 400; sent := ErrorBody (lit "Missing or invalid userMessage") |}
     else
     if negb (truthy contextPack) || negb (js_type_eqb (typeof contextPack) TObject) then
       Respond {| code := 400; sent := ErrorBody (lit "Missing or invalid contextPack") |}
     else
     systemBlock <~ buildSystemBlock contextPack ;;
     turns <~ normalizeThread thread ;;
     let model := model_of e in
     key <~ ToString apiKey ;;
     let url := endpoint model key in
     let body :=
       {| systemInstruction := systemBlock;
          contents := turns ++ [userTurn userMessage];
          config := {| temperature := temperature_0_7;
                       maxOutputTokens := 1200;
                       responseMimeType := Some (lit "text/plain") |} |} in
     Fetch url body (fun o =>
       match o with
       | Rejected => Raise FetchFailed
       | Responded r =>
           let rawText := rawText r in
           if negb (ok r) then
             Respond {| code := 502;
                        sent := GatewayBody (lit "Gemini call failed") (status r) rawText |}
           else
           match JSON_parse rawText with
           | None => Raise SyntaxError
           | Some json =>
               reply <~ extractReply json ;;
               d <~ ToString (coalesce (query_debug req) (VString [])) ;;
               let debug := jsstring_eqb d (lit "1") in
               if debug then
                 let finishReason :=
                   coalesce (opt_member (opt_first (opt_member json candidates)) finishReason)
                     VNull in
                 let usage := coalesce (opt_member json usageMetadata) VNull in
                 Respond {| code := 200;
                            sent := DebugBody reply model finishReason usage json |}
               else
               Respond {| code := 200; sent := ReplyBody reply |}
           end
       end))
    unexpected.

(** The two revisions of the file. *)
Inductive revision := earlier | later.

Definition coach_chat (rev : revision) : env -> request -> prog :=
  match rev with
  | earlier => coach_chat_earlier
  | later => coach_chat_later
  end.

(** ** Vocabulary of the statements *)

(** The reply for a concatenated text: its trim, or the fallback when
    nothing is left. *)
Definition replyFor (t : jsstring) : jsstring :=
  match trim t with [] => fallbackReply | _ :: _ => trim t end.

(** A part's text read as a string: a string itself, nothing otherwise. *)
Definition textString (p : value) : jsstring :=
  match partText p with VString s => s | _ => [] end.

(** A field that is absent ([undefined]), [null] or the empty string. *)
Definition blank (v : value) : Prop :=
  v = VUndefined \/ v = VNull \/ v = VString [].

(** A value whose conversion to a string is defined: no plain object
    with an own [toString] property is reached through arrays. *)
Fixpoint printable (v : value) : bool :=
  match v with
  | VArray l =>
      (fix all (l : list value) : bool :=
         match l with [] => true | x :: l' => printable x && all l' end) l
  | VObject props =>
      match own props (lit "toString") with Some _ => false | None => true end
  | _ => true
  end.

(** The credential as [!apiKey] sees it. *)
Definition credential_set (e : env) : Prop :=
  exists k, GEMINI_API_KEY e = Some k /\ k <> [].

(** The three destructured fields of [req.body ?? {}]. *)
Definition userMessage_of (req : request) : value :=
  member (coalesce (body req) (VObject [])) userMessage.
Definition contextPack_of (req : request) : value :=
  member (coalesce (body req) (VObject [])) contextPack.
Definition thread_of (req : request) : value :=
  member (coalesce (body req) (VObject [])) thread.

Definition valid_userMessage (v : value) : Prop :=
  exists s, v = VString s /\ s <> [].

Definition valid_contextPack (v : value) : Prop :=
  (exists props, v = VObject props) \/ (exists l, v = VArray l).

Definition is_array (v : value) : bool :=
  match v with VArray _ => true | _ => false end.

Definition missing_credential : response :=
  {| code := 500; sent := ErrorBody (lit "Missing GEMINI_API_KEY") |}.
Definition invalid_userMessage : response :=
  {| code := 400; sent := ErrorBody (lit "Missing or invalid userMessage") |}.
Definition invalid_contextPack : response :=
  {| code := 400; sent := ErrorBody (lit "Missing or invalid contextPack") |}.
Definition unexpected_error : response :=
  {| code := 500; sent := ErrorBody (lit "Unexpected error") |}.
Definition bad_gateway (r : upstream) : response :=
  {| code := 502;
     sent := GatewayBody (lit "Gemini call failed") (status r) (rawText r) |}.

(** ** A runtime and inputs for the examples *)

(** Number::toString on the doubles the examples use: the integers (up
    to 21 digits, where the engine still prints every digit), the zeros
    and the non-finite ones. *)
Definition print_integer (n : number) : jsstring :=
  match n with
  | S754_zero _ => lit "0"
  | S754_nan => lit "NaN"
  | S754_infinity false => lit "Infinity"
  | S754_infinity true => lit "-Infinity"
  | S754_finite s m e =>
      let z := Z.pos m * 2 ^ e in
      lit (DecimalString.NilZero.string_of_int
             (Z.to_int (if s then - z else z)))
  end.

Definition prop (k : string) (v : value) : jsstring * value := (lit k, v).

Definition str (s : string) : value := VString (lit s).

Definition envelope_of_parts (ps : value) : value :=
  VObject [prop "candidates"
             (VArray [ VObject [prop "content" (VObject [prop "parts" ps])] ])].

Definition quoted (s : string) : jsstring := [0x22]%N ++ lit s ++ [0x22]%N.

Definition hello_body : jsstring :=
  lit "{" ++ quoted "candidates" ++ lit ":[{" ++ quoted "content" ++
  lit ":{" ++ quoted "parts" ++ lit ":[{" ++ quoted "text" ++ lit ":" ++
  quoted "Hello " ++ lit "},{" ++ quoted "text" ++ lit ":" ++
  quoted "world" ++ lit "}]}}]}".

Definition hello_envelope : value :=
  envelope_of_parts
    (VArray [ VObject [prop "text" (str "Hello ")];
              VObject [prop "text" (str "world")] ]).

(** [JSON.parse] on the one body the examples receive. *)
Definition parse_hello (s : jsstring) : option value :=
  if jsstring_eqb s hello_body then Some hello_envelope else None.

Definition env_with_key : env :=
  {| GEMINI_API_KEY := Some (lit "k"); GEMINI_MODEL := None |}.

Definition env_without_key : env :=
  {| GEMINI_API_KEY := None; GEMINI_MODEL := None |}.

Definition twelve_turns : list value :=
  map (fun i => VObject [prop "role" (str (if Nat.even i then "user" else "assistant"));
                         prop "text" (VString [N.of_nat (65 + i)])])
      (seq 0 12).

Definition chat_request (thread : value) : request :=
  {| body := VObject [prop "userMessage" (str "hi");
                      prop "contextPack" (VObject []);
                      prop "thread" thread];
     query_debug := VUndefined |}.

Definition long_thread : value := VObject [prop "turns" (VArray twelve_turns)].

Definition short_thread : value :=
  VObject [prop "turns"
             (VArray [ VObject [prop "role" (str "user"); prop "text" (str "a")];
                       VObject [prop "role" (str "assistant"); prop "text" (str "b")];
                       VObject [prop "role" VNull; prop "text" (str "c")];
                       VObject [prop "text" (str "d")] ])].

Definition short_thread_normalized : list turn :=
  [ {| role_of := lit "user"; parts_of := [ {| text_of := str "a" |} ] |};
    {| role_of := lit "model"; parts_of := [ {| text_of := str "b" |} ] |};
    {| role_of := lit "model"; parts_of := [ {| text_of := str "c" |} ] |};
    {| role_of := lit "model"; parts_of := [ {| text_of := str "d" |} ] |} ].

Definition five : number := S754_finite false 5 0.

Definition number_text_turn : value := VObject [prop "text" (VNumber five)].

Definition null_text_turn : value := VObject [prop "text" VNull].

Definition shadowed_text_turn : value :=
  VObject [prop "text" (VObject [prop "toString" VNull])].

(** An envelope whose parts is a string, and one whose only text is
    padded with spaces. *)
Definition string_parts_envelope : value := envelope_of_parts (str "x").

Definition padded_envelope : value :=
  envelope_of_parts (VArray [ VObject [prop "text" (str " hi ")] ]).

Definition blank_contextPack : value :=
  VObject [prop "coachPersona" VNull; prop "constraints" (VString [])].

Definition empty_message_request : request :=
  {| body := VObject [prop "userMessage" (VString []);
                      prop "contextPack" (VObject [])];
     query_debug := VUndefined |}.

Definition rate_limited : upstream :=
  {| status := 503; rawText := lit "rate limited" |}.

Definition string_turns_thread : value := VObject [prop "turns" (str "abc")].

(** ** Vocabulary of the further properties *)

(** The middle of the template, from the first header to the second:
    the match summary between its two headers. *)
Definition summaryBlock (summary : jsstring) : jsstring :=
  lit "Recent matches:" ++ nl ++ summary ++ nl ++ nl ++ lit "Constraints:".

(** A string that neither begins nor ends with a white space or line
    terminator. *)
Definition no_outer_whitespace (s : jsstring) : Prop :=
  (forall c r, s = c :: r -> is_whitespace c = false) /\
  (forall r c, s = r ++ [c] -> is_whitespace c = false).

(** The four fields [buildSystemBlock] reads. *)
Definition contextFields : list field :=
  [coachPersona; playerProfile; recentMatchesSummary; constraints].

(** An envelope whose first candidate has the one text part [s]. *)
Definition envelope_of_text (s : jsstring) : value :=
  envelope_of_parts (VArray [ VObject [prop "text" (VString s)] ]).

(** A turn of the shape the upstream expects: one of the two roles and a
    single part whose text is a string. *)
Definition wellformed_turn (o : turn) : Prop :=
  (role_of o = lit "user" \/ role_of o = lit "model") /\
  exists s, parts_of o = [ {| text_of := VString s |} ].

(** The text of each turn that [slice(-10)] keeps can be converted. *)
Definition kept_texts_printable (ts : list value) : bool :=
  forallb (fun t => printable (opt_member t text)) (slice (-10) ts).

(** The generation parameters each revision sends. *)
Definition config_of (rev : revision) : generationConfig :=
  match rev with
  | earlier => {| temperature := temperature_0_7;
                  maxOutputTokens := 600;
                  responseMimeType := None |}
  | later => {| temperature := temperature_0_7;
                maxOutputTokens := 1200;
                responseMimeType := Some (lit "text/plain") |}
  end.

(** The text of [req.query.debug] that the later revision compares
    with the string 1. *)
Definition debugText (req : request) : result jsstring :=
  ToString (coalesce (query_debug req) (VString [])).

(** The two bodies of a 200. *)
Definition plain_reply (reply : jsstring) : response :=
  {| code := 200; sent := ReplyBody reply |}.

Definition debug_reply (e : env) (json : value) (reply : jsstring) : response :=
  {| code := 200;
     sent := DebugBody reply (model_of e)
               (coalesce (opt_member (opt_first (opt_member json candidates))
                            finishReason) VNull)
               (coalesce (opt_member json usageMetadata) VNull)
               json |}.

(** A 200 carries a reply that is not empty. *)
Definition carries_reply (r : response) : Prop :=
  match sent r with
  | ReplyBody reply | DebugBody reply _ _ _ _ => reply <> []
  | _ => False
  end.

(** ** The application around the handler *)

(** [name.toLowerCase()] on a header name; header names are ASCII. *)
Definition ascii_lower (c : code_unit) : code_unit :=
  if (N.leb 65 c && N.leb c 90)%bool then (c + 32)%N else c.

Definition toLowerCase (s : jsstring) : jsstring := map ascii_lower s.

(** The headers of the response object: Node keeps them under the
    lower-cased name, with the name as it was given and the value. *)
Definition headers := list (jsstring * (jsstring * jsstring)).

(** [res.setHeader(name, value)]: a header of the same name, whatever
    its case, is replaced where it stands; a new one goes to the end. *)
Fixpoint setHeader (name value : jsstring) (hs : headers) : headers :=
  match hs with
  | [] => [(toLowerCase name, (name, value))]
  | (k, nv) :: rest =>
      if jsstring_eqb k (toLowerCase name)
      then (k, (name, value)) :: rest
      else (k, nv) :: setHeader name value rest
  end.

(** [res.getHeader(name)] *)
Fixpoint getHeader (name : jsstring) (hs : headers) : option jsstring :=
  match hs with
  | [] => None
  | (k, nv) :: rest =>
      if jsstring_eqb k (toLowerCase name) then Some (snd nv)
      else getHeader name rest
  end.

(** What a middleware does with the response: it sends a status with a
    text body, or calls [next()]. *)
Inductive step := Send (status_code : Z) (text_body : jsstring) | Next.

(** The middleware registered after the body parser. *)
Definition cors (method : jsstring) (hs : headers) : headers * step :=
  let hs := setHeader (lit "Access-Control-Allow-Origin") (lit "*") hs in
  let hs := setHeader (lit "Access-Control-Allow-Methods")
              (lit "POST, GET, OPTIONS") hs in
  let hs := setHeader (lit "Access-Control-Allow-Headers")
              (lit "Content-Type, Authorization") hs in
  if jsstring_eqb method (lit "OPTIONS") then (hs, Send 204 []) else (hs, Next).

(** The body of [GET /], with the tip the later revision adds. *)
Definition root_info (rev : revision) : value :=
  VObject
    ([ prop "ok" (VBool true);
       prop "service" (str "wepadel-coach-backend");
       prop "endpoints" (VArray [str "POST /coach/chat"; str "GET /health"]) ]
     ++ match rev with
        | earlier => []
        | later =>
            [ prop "tip"
                (str "Use POST /coach/chat?debug=1 to return full Gemini response for troubleshooting.") ]
        end).

(** The body of [GET /health]. *)
Definition health_info : value := VObject [prop "ok" (VBool true)].

(** An incoming request as the layers of the application see it: its
    method and path, what [express.json] made of its body ([None] when
    the parser passed an error on), and [req.query.debug]. *)
Record http_request :=
  { method : jsstring; path : jsstring;
    parsed : option value; debug_param : value }.

(** How the application answers: a JSON literal from one of the two
    GET routes, the text a middleware sent, the chat handler's program,
    or nothing of this file: no route matched, or the body parser
    passed an error and every layer below was skipped. *)
Inductive answer :=
| Static (status_code : Z) (json_body : value)
| Plain (status_code : Z) (text_body : jsstring)
| Chat (p : prog)
| Unrouted
| BodyRejected.

(** The answer with the headers the file has set on the response. *)
Record served := { headers_set : headers; answered : answer }.

(** A route matcher for the examples: the method and the path as
    written. *)
Definition exact_route (verb pattern : string) (h : http_request) : bool :=
  jsstring_eqb (method h) (lit verb) && jsstring_eqb (path h) (lit pattern).

(** Express's test that a route registered for a verb and a path takes
    the request. *)
Variable route_matches : string -> string -> http_request -> bool.

(** The layers in the order the file registers them: the body parser,
    the CORS middleware, the two GET routes, the chat route. *)
Definition app (rev : revision) (e : env) (h : http_request) : served :=
  match parsed h with
  | None => {| headers_set := []; answered := BodyRejected |}
  | Some b =>
      match cors (method h) [] with
      | (hs, Send c t) => {| headers_set := hs; answered := Plain c t |}
      | (hs, Next) =>
          if route_matches "GET" "/" h then
            {| headers_set := hs; answered := Static 200 (root_info rev) |}
          else if route_matches "GET" "/health" h then
            {| headers_set := hs; answered := Static 200 health_info |}
          else if route_matches "POST" "/coach/chat" h then
            {| headers_set := hs;
               answered :=
                 Chat (coach_chat rev e
                         {| body := b; query_debug := debug_param h |}) |}
          else {| headers_set := hs; answered := Unrouted |}
      end
  end.

(** ** Inputs for the further examples *)

Definition full_contextPack : value :=
  VObject [prop "coachPersona" (str "Coach");
           prop "playerProfile" (str "Pro");
           prop "recentMatchesSummary" (str " 6-4 ");
           prop "constraints" (str "short")].

Definition shadowed_contextPack : value :=
  VObject [prop "constraints" (VObject [prop "toString" VNull])].

(** The ten last of the twelve turns alone, and the same ten behind a
    turn whose text cannot be converted. *)
Definition recent_thread : value :=
  VObject [prop "turns" (VArray (skipn 2 twelve_turns))].

Definition poisoned_thread : value :=
  VObject [prop "turns" (VArray ([shadowed_text_turn] ++ skipn 2 twelve_turns))].

Definition shadowed_thread : value :=
  VObject [prop "turns" (VArray [shadowed_text_turn])].

Definition debug_request : request :=
  {| body := VObject [prop "userMessage" (str "hi");
                      prop "contextPack" (VObject [])];
     query_debug := str "1" |}.

Definition hello_response : upstream :=
  {| status := 200; rawText := hello_body |}.

Definition garbled_response : upstream :=
  {| status := 200; rawText := lit "<html>" |}.

Definition preflight : http_request :=
  {| method := lit "OPTIONS"; path := lit "/coach/chat";
     parsed := Some (VObject []); debug_param := VUndefined |}.

(** * Properties *)

(** ** Strings and sequences *)

Lemma jsstring_eqb_eq (a b : jsstring) : jsstring_eqb a b = true <-> a = b.
Proof.
  revert b; induction a as [|x a IH]; intros [|y b]; simpl;
    try (split; [discriminate | discriminate]); try tauto.
  rewrite andb_true_iff, N.eqb_eq, IH.
  split; [intros [-> ->]; reflexivity | intros H; inversion H; auto].
Qed.

Lemma strict_eq_string_spec (v : value) (s : jsstring) :
  strict_eq_string v s = true <-> v = VString s.
Proof.
  destruct v; simpl; try (split; [discriminate | discriminate]).
  rewrite jsstring_eqb_eq. split; [intros ->; reflexivity | congruence].
Qed.

(** [slice(-10)] drops a prefix and keeps the ten last elements, or all
    of them when there are no more than ten. *)
Lemma slice_last_ten {A} (l : list A) :
  exists dropped,
    l = dropped ++ slice (-10) l /\
    length (slice (-10) l) = Nat.min 10 (length l).
Proof.
  unfold slice.
  replace (-10 <? 0) with true by reflexivity.
  set (k := Z.to_nat (Z.max (Z.of_nat (length l) + -10) 0)).
  exists (firstn k l). split.
  - symmetry. apply firstn_skipn.
  - rewrite length_skipn. subst k. lia.
Qed.

Lemma slice_short {A} (l : list A) :
  (length l <= 10)%nat -> slice (-10) l = l.
Proof.
  intros H. unfold slice.
  replace (-10 <? 0) with true by reflexivity.
  replace (Z.to_nat (Z.max (Z.of_nat (length l) + -10) 0)) with 0%nat by lia.
  reflexivity.
Qed.

Lemma mapM_Forall2 {A B} (f : A -> result B) (l : list A) (outs : list B) :
  mapM f l = Ok outs <-> Forall2 (fun x y => f x = Ok y) l outs.
Proof.
  revert outs; induction l as [|x l IH]; intros outs; simpl.
  - split.
    + intros H; inversion H; constructor.
    + intros H; inversion H; reflexivity.
  - destruct (f x) as [y|e] eqn:Hx; simpl.
    + destruct (mapM f l) as [ys|e] eqn:Hl; simpl.
      * split.
        -- intros H; inversion H; subst. constructor; [assumption|].
           apply IH; reflexivity.
        -- intros H; inversion H as [|? ? ? ? Hy Hys]; subst.
           apply IH in Hys. congruence.
      * split; [discriminate|].
        intros H; inversion H as [|? ? ? ? Hy Hys]; subst.
        apply IH in Hys. discriminate.
    + split; [discriminate|].
      intros H; inversion H; subst. congruence.
Qed.

(** ** Thread normalization *)

Lemma normalizeThread_array (th : value) (ts : list value) :
  opt_member th turns = VArray ts ->
  normalizeThread th = mapM normalizeTurn (slice (-10) ts).
Proof.
  intros H. unfold normalizeThread. rewrite H. reflexivity.
Qed.

(** C2: when the turn list of a thread is an array, normalization is the
    per-turn normalization, in order, of the list without a dropped
    prefix: exactly the last 10 turns when there are more than 10, the
    whole list when there are 10 or fewer.  An absent thread (or one
    without turns) gives the empty list. *)
Theorem normalizeThread_keeps_last_ten (th : value) :
  (forall ts, opt_member th turns = VArray ts ->
     exists dropped kept,
       ts = dropped ++ kept /\
       ((10 < length ts)%nat -> length kept = 10%nat) /\
       ((length ts <= 10)%nat -> kept = ts) /\
       normalizeThread th = mapM normalizeTurn kept /\
       (forall outs, normalizeThread th = Ok outs <->
                     Forall2 (fun t o => normalizeTurn t = Ok o) kept outs)) /\
  (nullish (opt_member th turns) = true -> normalizeThread th = Ok []) /\
  (nullish th = true -> normalizeThread th = Ok []).
Proof.
  split; [|split].
  - intros ts H.
    destruct (slice_last_ten ts) as [dropped [Hsplit Hlen]].
    exists dropped, (slice (-10) ts).
    pose proof (normalizeThread_array th ts H) as Heq.
    repeat split.
    + exact Hsplit.
    + intros Hlong. rewrite Hlen. lia.
    + apply slice_short.
    + exact Heq.
    + rewrite Heq. apply mapM_Forall2.
    + rewrite Heq. apply mapM_Forall2.
  - intros H. unfold normalizeThread, coalesce. rewrite H. reflexivity.
  - intros H. unfold normalizeThread, coalesce, opt_member.
    rewrite H. reflexivity.
Qed.

(** The role test of the callback. *)
Lemma turnRole_spec (t : value) :
  (turnRole t = lit "user" <-> opt_member t role = VString (lit "user")) /\
  (opt_member t role <> VString (lit "user") -> turnRole t = lit "model").
Proof.
  unfold turnRole.
  destruct (strict_eq_string (opt_member t role) (lit "user")) eqn:E.
  - apply strict_eq_string_spec in E. split; [tauto | congruence].
  - assert (opt_member t role <> VString (lit "user")) as Hne.
    { intros H. apply strict_eq_string_spec in H. congruence. }
    split; [split; [discriminate | tauto] | reflexivity].
Qed.

Lemma normalizeTurn_role (t : value) (o : turn) :
  normalizeTurn t = Ok o -> role_of o = turnRole t.
Proof.
  unfold normalizeTurn. destruct (turnText t); simpl; [|discriminate].
  intros H; inversion H; reflexivity.
Qed.

(** C3: the role of a normalized turn is "user" exactly when the role
    field of its source turn is the string "user", and "model" for every
    other value of the field; this holds of the role computed for any
    turn and of every turn of a normalized thread, matched in order with
    the retained source turns. *)
Theorem normalized_role_user_or_model :
  (forall t,
     (turnRole t = lit "user" <-> opt_member t role = VString (lit "user")) /\
     (opt_member t role <> VString (lit "user") -> turnRole t = lit "model")) /\
  (forall th ts outs,
     opt_member th turns = VArray ts ->
     normalizeThread th = Ok outs ->
     Forall2
       (fun t o =>
          (role_of o = lit "user" <-> opt_member t role = VString (lit "user")) /\
          (opt_member t role <> VString (lit "user") -> role_of o = lit "model"))
       (slice (-10) ts) outs).
Proof.
  split; [exact turnRole_spec|].
  intros th ts outs Hts Hok.
  rewrite (normalizeThread_array th ts Hts) in Hok.
  apply mapM_Forall2 in Hok.
  induction Hok as [|t o l outs Hto _ IH]; constructor; [|exact IH].
  rewrite (normalizeTurn_role t o Hto). apply turnRole_spec.
Qed.

(** ** String conversion *)

(** Induction on values through the arrays and objects they nest. *)
Lemma value_nested_ind (P : value -> Prop) :
  P VUndefined -> P VNull -> (forall b, P (VBool b)) ->
  (forall n, P (VNumber n)) -> (forall s, P (VString s)) ->
  (forall l, Forall P l -> P (VArray l)) ->
  (forall props, Forall (fun kv => P (snd kv)) props -> P (VObject props)) ->
  forall v, P v.
Proof.
  intros Hu Hn Hb Hnum Hs Ha Ho.
  fix IH 1. intros [| |b|n|s|l|props].
  - exact Hu.
  - exact Hn.
  - apply Hb.
  - apply Hnum.
  - apply Hs.
  - apply Ha. induction l as [|x l IHl]; constructor; [apply IH | exact IHl].
  - apply Ho. induction props as [|[k x] props IHp]; constructor;
      [apply IH | exact IHp].
Qed.

Lemma ToString_array (l : list value) :
  ToString (VArray l) =
  (ss <- mapM element_text l ;; Ok (join_strings (lit ",") ss)).
Proof.
  simpl. f_equal. induction l as [|x l IH]; simpl; [reflexivity|].
  unfold element_text at 1. rewrite IH. reflexivity.
Qed.

Lemma printable_array (l : list value) :
  printable (VArray l) = forallb printable l.
Proof.
  simpl. induction l as [|x l IH]; simpl; [reflexivity|]. rewrite IH. reflexivity.
Qed.

(** The conversion is defined exactly on the printable values, and a
    conversion that is not defined throws a TypeError. *)
(** The conversion is defined exactly on the printable values, and a
    conversion that is not defined throws a TypeError. *)
Lemma element_text_printable (x : value) :
  ((printable x = true -> exists s, ToString x = Ok s) /\
   (printable x = false -> ToString x = Throw TypeError)) ->
  (printable x = true -> exists s, element_text x = Ok s) /\
  (printable x = false -> element_text x = Throw TypeError).
Proof.
  intros [H1 H2]. unfold element_text. split.
  - intros Hp. destruct (nullish x); [eexists; reflexivity | auto].
  - intros Hp. destruct x; simpl in *; try discriminate; auto.
Qed.

Lemma ToString_printable (v : value) :
  (printable v = true -> exists s, ToString v = Ok s) /\
  (printable v = false -> ToString v = Throw TypeError).
Proof.
  induction v as [| |b|n|s|l IH|props _] using value_nested_ind;
    try (split; [intros _; eexists; reflexivity | discriminate]).
  - split; [intros _; destruct b; eexists; reflexivity | discriminate].
  - rewrite ToString_array, printable_array.
    induction IH as [|x l Hx _ IHl]; simpl.
    + split; [intros _; eexists; reflexivity | discriminate].
    + destruct IHl as [IH1 IH2].
      destruct (element_text_printable x Hx) as [Hx1 Hx2].
      destruct (printable x) eqn:Px; simpl.
      * destruct (Hx1 eq_refl) as [sx ->]. simpl.
        split.
        -- intros Hl. destruct (IH1 Hl) as [s Hs].
           destruct (mapM element_text l); simpl in *; [|discriminate].
           eexists; reflexivity.
        -- intros Hl. specialize (IH2 Hl).
           destruct (mapM element_text l); simpl in *; [discriminate|].
           exact IH2.
      * split; [discriminate|]. intros _.
        rewrite (Hx2 eq_refl). reflexivity.
  - simpl. destruct (own props (lit "toString"));
      (split; [intros H; try discriminate; eexists; reflexivity
              | intros H; try discriminate; reflexivity]).
Qed.

(** C4 (amended): the text of a normalized turn is what [String] gives
    for the turn's text field whenever the field is neither absent nor
    null: the conversion itself where it is defined, as for every
    number, boolean, string, and every object or array that reaches no
    object with an own toString property, and the same exception where
    it is not.  A null text, like an absent one, gives the empty
    string. *)
Theorem turn_text_is_conversion (t : value) :
  (nullish (opt_member t text) = true ->
     turnText t = Ok [] /\
     normalizeTurn t =
       Ok {| role_of := turnRole t; parts_of := [ {| text_of := VString [] |} ] |}) /\
  (nullish (opt_member t text) = false ->
     turnText t = ToString (opt_member t text) /\
     (printable (opt_member t text) = true ->
        exists s,
          ToString (opt_member t text) = Ok s /\
          normalizeTurn t =
            Ok {| role_of := turnRole t;
                  parts_of := [ {| text_of := VString s |} ] |})) /\
  (forall n, opt_member t text = VNumber n ->
     normalizeTurn t =
       Ok {| role_of := turnRole t;
             parts_of := [ {| text_of := VString (Number_toString n) |} ] |}).
Proof.
  unfold normalizeTurn, turnText, coalesce.
  split; [|split].
  - intros ->. split; reflexivity.
  - intros ->. split; [reflexivity|].
    intros Hp. destruct (proj1 (ToString_printable _) Hp) as [s Hs].
    exists s. rewrite Hs. split; reflexivity.
  - intros n ->. reflexivity.
Qed.

(** ** Reply extraction *)

Lemma mapM_pure {A B} (f : A -> B) (l : list A) :
  mapM (fun x => Ok (f x)) l = Ok (map f l).
Proof.
  induction l as [|x l IH]; simpl; [reflexivity|]. rewrite IH. reflexivity.
Qed.

Lemma join_strings_empty_sep (ss : list jsstring) :
  join_strings [] ss = concat ss.
Proof.
  induction ss as [|s ss IH]; simpl; [reflexivity|].
  destruct ss as [|s' ss]; [simpl; rewrite app_nil_r; reflexivity|].
  rewrite IH. reflexivity.
Qed.

Lemma partText_not_nullish (p : value) : nullish (partText p) = false.
Proof.
  unfold partText, coalesce.
  destruct (nullish (opt_member p text)) eqn:E; [reflexivity | exact E].
Qed.

(** Joining the texts of the parts with the empty separator is
    concatenating their conversions. *)
Lemma join_partTexts (ps : list value) :
  join [] (map partText ps) =
  (ss <- mapM (fun p => ToString (partText p)) ps ;; Ok (concat ss)).
Proof.
  unfold join.
  assert (mapM element_text (map partText ps) =
          mapM (fun p => ToString (partText p)) ps) as ->.
  { induction ps as [|p ps IH]; simpl; [reflexivity|].
    unfold element_text at 1. rewrite partText_not_nullish, IH. reflexivity. }
  destruct (mapM _ ps); simpl; [|reflexivity].
  rewrite join_strings_empty_sep. reflexivity.
Qed.

Lemma mapM_string_texts (ps : list value) :
  Forall (fun p => exists s, partText p = VString s) ps ->
  mapM (fun p => ToString (partText p)) ps = Ok (map textString ps).
Proof.
  induction 1 as [|p ps [s Hs] _ IH]; simpl; [reflexivity|].
  unfold textString at 1. rewrite Hs, IH. reflexivity.
Qed.

(** The guard and the two branches of [extractReply]'s return. *)
Lemma reply_choice (t : jsstring) :
  (if truthy (VString t) && (0 <? Z.of_nat (length (trim t)))
   then trim t else fallbackReply) = replyFor t.
Proof.
  unfold replyFor. destruct t as [|c t]; [reflexivity|].
  cbn [truthy andb]. destruct (trim (c :: t)); reflexivity.
Qed.

Lemma replyFor_nonempty (t : jsstring) : replyFor t <> [].
Proof.
  unfold replyFor. destruct (trim t); [|discriminate].
  unfold fallbackReply. simpl. discriminate.
Qed.

Lemma extractReply_array (json : value) (ps : list value) :
  coalesce (candidateParts json) (VArray []) = VArray ps ->
  extractReply json =
  (ss <- mapM (fun p => ToString (partText p)) ps ;; Ok (replyFor (concat ss))).
Proof.
  intros H. unfold extractReply. rewrite H. cbn [map_method].
  rewrite mapM_pure. cbn [bind]. rewrite join_partTexts.
  destruct (mapM _ ps) as [ss|e]; cbn [bind]; [|reflexivity].
  rewrite reply_choice. reflexivity.
Qed.

(** A missing link anywhere in [json?.candidates?.[0]?.content?.parts]
    leaves the chain [undefined]. *)
Lemma candidateParts_missing_link (json : value) :
  nullish json = true \/
  nullish (opt_member json candidates) = true \/
  nullish (opt_first (opt_member json candidates)) = true \/
  nullish (opt_member (opt_first (opt_member json candidates)) content) = true ->
  candidateParts json = VUndefined.
Proof.
  unfold candidateParts.
  intros [H|[H|[H|H]]].
  - destruct json; try discriminate; reflexivity.
  - destruct (opt_member json candidates); try discriminate; reflexivity.
  - destruct (opt_first (opt_member json candidates)); try discriminate; reflexivity.
  - destruct (opt_member (opt_first (opt_member json candidates)) content);
      try discriminate; reflexivity.
Qed.

(** C1 (amended): on every parsed envelope whose
    candidates[0].content.parts is an array, or is missing because a
    link of the chain is (then the parts are the empty list),
    [extractReply] is the reply for the concatenation, in order and
    without separator, of the converted text of each part, a missing or
    null text counting as the empty string: the trim of the
    concatenation, or the fallback literal when the trim is empty.  It
    returns that reply whenever every text is a string or missing, and
    whatever it returns is not the empty string. *)
Theorem extractReply_trimmed_or_fallback (json : value) :
  (forall ps, coalesce (candidateParts json) (VArray []) = VArray ps ->
     extractReply json =
       (ss <- mapM (fun p => ToString (partText p)) ps ;;
        Ok (replyFor (concat ss))) /\
     (Forall (fun p => exists s, partText p = VString s) ps ->
      extractReply json = Ok (replyFor (concat (map textString ps))))) /\
  (nullish json = true \/
   nullish (opt_member json candidates) = true \/
   nullish (opt_first (opt_member json candidates)) = true \/
   nullish (opt_member (opt_first (opt_member json candidates)) content) = true \/
   nullish (candidateParts json) = true ->
   extractReply json = Ok fallbackReply) /\
  (forall r, extractReply json = Ok r -> r <> []).
Proof.
  split; [|split].
  - intros ps H. split; [apply extractReply_array; exact H|].
    intros Hs. rewrite (extractReply_array json ps H).
    rewrite (mapM_string_texts ps Hs). reflexivity.
  - intros H.
    assert (nullish (candidateParts json) = true) as Hn.
    { destruct H as [H|[H|[H|[H|H]]]]; try exact H;
        rewrite candidateParts_missing_link; tauto. }
    rewrite (extractReply_array json []).
    + reflexivity.
    + unfold coalesce. rewrite Hn. reflexivity.
  - intros r H.
    destruct (coalesce (candidateParts json) (VArray [])) as [| | | | |ps|] eqn:E;
      try (unfold extractReply in H; rewrite E in H; discriminate).
    rewrite (extractReply_array json ps E) in H.
    destruct (mapM _ ps); cbn [bind] in H; [|discriminate].
    inversion H. apply replyFor_nonempty.
Qed.

(** The text both revisions concatenate before choosing the reply. *)
Lemma inlineReply_array (json : value) (ps : list value) :
  candidateParts json = VArray ps ->
  inlineReply json =
  (ss <- mapM (fun p => ToString (partText p)) ps ;;
   Ok (match concat ss with [] => fallbackReply_earlier | t => t end)).
Proof.
  intros H. unfold inlineReply. rewrite H. cbn [nullish map_method].
  rewrite mapM_pure. cbn [bind]. rewrite join_partTexts.
  destruct (mapM _ ps) as [ss|e]; cbn [bind]; [|reflexivity].
  destruct (concat ss); reflexivity.
Qed.

Lemma replyFor_trimmed (t : jsstring) : t <> [] -> trim t = t -> replyFor t = t.
Proof.
  intros Hne Ht. unfold replyFor. rewrite Ht.
  destruct t; [contradiction | reflexivity].
Qed.

(** C9 (amended): the two revisions throw on the same envelopes, and
    where the earlier expression returns a text other than its fallback
    literal, [extractReply] returns the reply for that text: the text
    trimmed, or the later fallback when nothing is left.  The two
    replies are then equal when the text has no leading or trailing
    whitespace. *)
Theorem extractReply_refines_inline (json : value) :
  (forall e, inlineReply json = Throw e <-> extractReply json = Throw e) /\
  (forall t, inlineReply json = Ok t -> t <> fallbackReply_earlier ->
     extractReply json = Ok (replyFor t)) /\
  (forall t, inlineReply json = Ok t -> t <> fallbackReply_earlier ->
     trim t = t -> extractReply json = inlineReply json).
Proof.
  assert (forall t, inlineReply json = Ok t -> t <> fallbackReply_earlier ->
                    t <> [] /\ extractReply json = Ok (replyFor t)) as Hmain.
  { intros t Hin Hne.
    destruct (candidateParts json) as [| | | | |ps|] eqn:E;
      try (unfold inlineReply in Hin; rewrite E in Hin;
           cbn [nullish map_method bind] in Hin; congruence).
    rewrite (inlineReply_array json ps E) in Hin.
    rewrite (extractReply_array json ps)
      by (unfold coalesce; rewrite E; reflexivity).
    destruct (mapM _ ps) as [ss|e]; cbn [bind] in *; [|discriminate].
    destruct (concat ss) as [|c u] eqn:Ec; inversion Hin; subst.
    - contradiction.
    - split; [discriminate | reflexivity]. }
  split; [|split].
  - intros e.
    destruct (candidateParts json) as [| | | | |ps|] eqn:E;
      try (unfold inlineReply, extractReply, coalesce; rewrite E;
           cbn [nullish map_method bind mapM join element_text join_strings
                truthy andb];
           split; congruence).
    rewrite (inlineReply_array json ps E).
    rewrite (extractReply_array json ps)
      by (unfold coalesce; rewrite E; reflexivity).
    destruct (mapM _ ps); cbn [bind]; split; congruence.
  - intros t Hin Hne. apply (Hmain t Hin Hne).
  - intros t Hin Hne Ht. destruct (Hmain t Hin Hne) as [Hnil Hex].
    rewrite Hex, Hin, (replyFor_trimmed t Hnil Ht). reflexivity.
Qed.

(** ** The system instruction *)

Lemma blank_coalesce (v : value) :
  blank v -> coalesce v (VString []) = VString [].
Proof. intros [->|[->| ->]]; reflexivity. Qed.

Lemma buildSystemBlock_sections (cp : value) :
  buildSystemBlock cp =
  (s1 <- sectionText cp coachPersona ;;
   s2 <- sectionText cp playerProfile ;;
   s3 <- sectionText cp recentMatchesSummary ;;
   s4 <- sectionText cp constraints ;;
   Ok (trim (systemTemplate s1 s2 s3 s4))).
Proof. reflexivity. Qed.

(** C6: for a ContextPack whose four fields are all empty or absent the
    system instruction is the template with its four sections blank,
    trimmed: the two headers with the blank lines between them.  A
    missing field fills its section with the empty string, and the
    instruction is always the trim of the one template filled with the
    four converted fields. *)
Theorem systemBlock_constant_template (cp : value) :
  (blank (opt_member cp coachPersona) ->
   blank (opt_member cp playerProfile) ->
   blank (opt_member cp recentMatchesSummary) ->
   blank (opt_member cp constraints) ->
   buildSystemBlock cp = Ok (trim (systemTemplate [] [] [] [])) /\
   trim (systemTemplate [] [] [] []) =
     lit "Recent matches:" ++ nl ++ nl ++ nl ++ lit "Constraints:") /\
  (forall f, nullish (opt_member cp f) = true -> sectionText cp f = Ok []) /\
  (forall s1 s2 s3 s4,
     sectionText cp coachPersona = Ok s1 ->
     sectionText cp playerProfile = Ok s2 ->
     sectionText cp recentMatchesSummary = Ok s3 ->
     sectionText cp constraints = Ok s4 ->
     buildSystemBlock cp = Ok (trim (systemTemplate s1 s2 s3 s4))).
Proof.
  split; [|split].
  - intros H1 H2 H3 H4. split; [|reflexivity].
    rewrite buildSystemBlock_sections. unfold sectionText.
    rewrite !blank_coalesce by assumption. reflexivity.
  - intros f H. unfold sectionText, coalesce. rewrite H. reflexivity.
  - intros s1 s2 s3 s4 H1 H2 H3 H4.
    rewrite buildSystemBlock_sections, H1, H2, H3, H4. reflexivity.
Qed.

(** ** The handler *)

Lemma credential_test (e : env) :
  truthy (env_value (GEMINI_API_KEY e)) = true <-> credential_set e.
Proof.
  unfold credential_set. destruct (GEMINI_API_KEY e) as [[|c k]|]; simpl.
  - split; [discriminate | intros [k [H Hne]]; inversion H; subst; contradiction].
  - split; [intros _; eexists; split; [reflexivity | discriminate] | reflexivity].
  - split; [discriminate | intros [k [H _]]; discriminate].
Qed.

Lemma userMessage_test (v : value) :
  negb (truthy v) || negb (js_type_eqb (typeof v) TString) = false <->
  valid_userMessage v.
Proof.
  unfold valid_userMessage.
  destruct v as [| |b|n|[|c s]|l|props]; simpl;
    try (rewrite ?orb_true_r; split;
         [discriminate | intros [s0 [H _]]; discriminate]).
  - split; [discriminate | intros [s0 [H Hne]]; inversion H; subst; contradiction].
  - split; [intros _; eexists; split; [reflexivity | discriminate] | reflexivity].
Qed.

Lemma contextPack_test (v : value) :
  negb (truthy v) || negb (js_type_eqb (typeof v) TObject) = false <->
  valid_contextPack v.
Proof.
  unfold valid_contextPack.
  destruct v as [| |b|n|s|l|props]; simpl;
    try (rewrite ?orb_true_r; split;
         [discriminate | intros [[x H]|[x H]]; discriminate]).
  - split; [intros _; right; eexists; reflexivity | reflexivity].
  - split; [intros _; left; eexists; reflexivity | reflexivity].
Qed.

Lemma test_false_or_true (b : bool) (P : Prop) :
  (b = false <-> P) -> ~ P -> b = true.
Proof. intros H Hn. destruct b; [reflexivity | tauto]. Qed.

(** The three checks, stated on the tests the source writes. *)
Lemma coach_chat_no_key rev e req :
  truthy (env_value (GEMINI_API_KEY e)) = false ->
  coach_chat rev e req = Respond missing_credential.
Proof.
  intros H. destruct rev; unfold coach_chat, coach_chat_earlier, coach_chat_later;
    rewrite H; reflexivity.
Qed.

Lemma coach_chat_bad_userMessage rev e req :
  truthy (env_value (GEMINI_API_KEY e)) = true ->
  negb (truthy (userMessage_of req)) ||
  negb (js_type_eqb (typeof (userMessage_of req)) TString) = true ->
  coach_chat rev e req = Respond invalid_userMessage.
Proof.
  unfold userMessage_of. intros H1 H2.
  destruct rev; unfold coach_chat, coach_chat_earlier, coach_chat_later;
    rewrite H1; cbn [negb]; cbv zeta; rewrite H2; reflexivity.
Qed.

Lemma coach_chat_bad_contextPack rev e req :
  truthy (env_value (GEMINI_API_KEY e)) = true ->
  negb (truthy (userMessage_of req)) ||
  negb (js_type_eqb (typeof (userMessage_of req)) TString) = false ->
  negb (truthy (contextPack_of req)) ||
  negb (js_type_eqb (typeof (contextPack_of req)) TObject) = true ->
  coach_chat rev e req = Respond invalid_contextPack.
Proof.
  unfold userMessage_of, contextPack_of. intros H1 H2 H3.
  destruct rev; unfold coach_chat, coach_chat_earlier, coach_chat_later;
    rewrite H1; cbn [negb]; cbv zeta; rewrite H2, H3; reflexivity.
Qed.

(** Past the three checks an exception of either helper is caught. *)
Lemma coach_chat_helper_throws rev e req :
  truthy (env_value (GEMINI_API_KEY e)) = true ->
  negb (truthy (userMessage_of req)) ||
  negb (js_type_eqb (typeof (userMessage_of req)) TString) = false ->
  negb (truthy (contextPack_of req)) ||
  negb (js_type_eqb (typeof (contextPack_of req)) TObject) = false ->
  (exists x, buildSystemBlock (contextPack_of req) = Throw x) \/
  (exists x, normalizeThread (thread_of req) = Throw x) ->
  coach_chat rev e req = Respond unexpected_error.
Proof.
  unfold userMessage_of, contextPack_of, thread_of. intros H1 H2 H3 Hx.
  destruct rev; unfold coach_chat, coach_chat_earlier, coach_chat_later;
    rewrite H1; cbn [negb]; cbv zeta; rewrite H2, H3;
    (destruct (buildSystemBlock _) as [sb|x] eqn:Hsb; [|reflexivity]);
    (destruct Hx as [[x Hx]|[x Hx]]; [discriminate|]);
    rewrite Hx; reflexivity.
Qed.

(** Past the three checks, with both helpers returning, the handler
    awaits one POST; a rejection ends in the catch, a response outside
    the success range in the 502, and nothing is fetched again. *)
Lemma coach_chat_calls rev e req sb ts :
  truthy (env_value (GEMINI_API_KEY e)) = true ->
  negb (truthy (userMessage_of req)) ||
  negb (js_type_eqb (typeof (userMessage_of req)) TString) = false ->
  negb (truthy (contextPack_of req)) ||
  negb (js_type_eqb (typeof (contextPack_of req)) TObject) = false ->
  buildSystemBlock (contextPack_of req) = Ok sb ->
  normalizeThread (thread_of req) = Ok ts ->
  exists url p k,
    coach_chat rev e req = Fetch url p k /\
    url = endpoint (model_of e) (match GEMINI_API_KEY e with Some s => s | None => [] end) /\
    systemInstruction p = sb /\
    contents p = ts ++ [userTurn (userMessage_of req)] /\
    k Rejected = Respond unexpected_error /\
    (forall r, ok r = false -> k (Responded r) = Respond (bad_gateway r)) /\
    (forall r, exists resp, k (Responded r) = Respond resp).
Proof.
  unfold userMessage_of, contextPack_of, thread_of. intros H1 H2 H3 Hsb Hts.
  destruct (GEMINI_API_KEY e) as [key|] eqn:Hkey; [|discriminate].
  cbn [env_value] in H1.
  destruct rev; unfold coach_chat, coach_chat_earlier, coach_chat_later;
    rewrite Hkey; cbn [env_value]; rewrite H1; cbn [negb]; cbv zeta;
    rewrite H2, H3, Hsb, Hts; cbn [run ToString try_catch];
    do 3 eexists; (split; [reflexivity|]);
    (split; [reflexivity|]); (split; [reflexivity|]); (split; [reflexivity|]);
    (split; [reflexivity|]); split.
  - intros r Hr. cbn [try_catch]. rewrite Hr. reflexivity.
  - intros r. destruct (ok r); cbn [negb]; [|eexists; reflexivity].
    destruct (JSON_parse (rawText r)) as [json|]; [|eexists; reflexivity].
    destruct (inlineReply json); eexists; reflexivity.
  - intros r Hr. cbn [try_catch]. rewrite Hr. reflexivity.
  - intros r. destruct (ok r); cbn [negb]; cbv zeta; [|eexists; reflexivity].
    destruct (JSON_parse (rawText r)) as [json|]; [|eexists; reflexivity].
    destruct (extractReply json); cbn [run try_catch]; [|eexists; reflexivity].
    destruct (ToString (coalesce (query_debug req) (VString [])));
      cbn [run try_catch]; [|eexists; reflexivity].
    destruct (jsstring_eqb _ _); eexists; reflexivity.
Qed.

(** A handler that fetches has passed the checks and both helpers. *)
Lemma fetch_is_past_the_helpers rev e req url p k :
  coach_chat rev e req = Fetch url p k ->
  truthy (env_value (GEMINI_API_KEY e)) = true /\
  negb (truthy (userMessage_of req)) ||
  negb (js_type_eqb (typeof (userMessage_of req)) TString) = false /\
  negb (truthy (contextPack_of req)) ||
  negb (js_type_eqb (typeof (contextPack_of req)) TObject) = false /\
  exists sb ts,
    buildSystemBlock (contextPack_of req) = Ok sb /\
    normalizeThread (thread_of req) = Ok ts.
Proof.
  intros H.
  destruct (truthy (env_value (GEMINI_API_KEY e))) eqn:E1;
    [|rewrite coach_chat_no_key in H by exact E1; discriminate].
  destruct (negb (truthy (userMessage_of req)) || _) eqn:E2;
    [rewrite coach_chat_bad_userMessage in H by assumption; discriminate|].
  destruct (negb (truthy (contextPack_of req)) || _) eqn:E3;
    [rewrite coach_chat_bad_contextPack in H by assumption; discriminate|].
  repeat split.
  destruct (buildSystemBlock (contextPack_of req)) as [sb|x] eqn:Hsb.
  - destruct (normalizeThread (thread_of req)) as [ts|x] eqn:Hts.
    + exists sb, ts. split; reflexivity.
    + rewrite coach_chat_helper_throws in H; try assumption; [discriminate|].
      right. exists x. exact Hts.
  - rewrite coach_chat_helper_throws in H; try assumption; [discriminate|].
    left. exists x. exact Hsb.
Qed.

(** What fails each check, in the words of the checks: a userMessage
    that is not a string or is the empty string (absent and null are not
    strings), a contextPack that is null or whose type is not object
    (absent is not). *)
Lemma invalid_userMessage_cases (v : value) :
  ~ valid_userMessage v <-> typeof v <> TString \/ v = VString [].
Proof.
  unfold valid_userMessage. split.
  - intros H. destruct v as [| |b|n|[|c s]|l|props];
      try (left; simpl; discriminate); [right; reflexivity|].
    exfalso. apply H. eexists; split; [reflexivity | discriminate].
  - intros [H|H] [s [Hv Hne]].
    + apply H. rewrite Hv. reflexivity.
    + apply Hne. congruence.
Qed.

Lemma invalid_contextPack_cases (v : value) :
  ~ valid_contextPack v <-> typeof v <> TObject \/ v = VNull.
Proof.
  unfold valid_contextPack. split.
  - intros H. destruct v as [| |b|n|s|l|props];
      try (left; simpl; discriminate); [right; reflexivity| |];
      exfalso; apply H; [right|left]; eexists; reflexivity.
  - intros [H|H] [[x Hv]|[x Hv]]; try congruence;
      apply H; rewrite Hv; reflexivity.
Qed.

(** C5: the handler checks in a fixed order and the first failure
    answers.  Without a credential (the variable unset, or set to the
    empty string) it answers 500 "Missing GEMINI_API_KEY" whatever the
    body is; with one, a userMessage that is missing or not a string
    (the empty string counts as missing) is answered 400 "Missing or
    invalid userMessage" whatever the contextPack is; with a valid
    userMessage, a contextPack that is missing or not an object is
    answered 400 "Missing or invalid contextPack".  The upstream call is
    made only past the three checks, and past them it is made as soon
    as the two helpers return. *)
Theorem checks_in_order (rev : revision) (e : env) (req : request) :
  (~ credential_set e -> coach_chat rev e req = Respond missing_credential) /\
  (credential_set e -> ~ valid_userMessage (userMessage_of req) ->
   coach_chat rev e req = Respond invalid_userMessage) /\
  (credential_set e -> valid_userMessage (userMessage_of req) ->
   ~ valid_contextPack (contextPack_of req) ->
   coach_chat rev e req = Respond invalid_contextPack) /\
  (forall url p k, coach_chat rev e req = Fetch url p k ->
     credential_set e /\ valid_userMessage (userMessage_of req) /\
     valid_contextPack (contextPack_of req)) /\
  (credential_set e -> valid_userMessage (userMessage_of req) ->
   valid_contextPack (contextPack_of req) ->
   forall sb ts,
     buildSystemBlock (contextPack_of req) = Ok sb ->
     normalizeThread (thread_of req) = Ok ts ->
     exists url p k, coach_chat rev e req = Fetch url p k).
Proof.
  pose proof (credential_test e) as Hc.
  pose proof (userMessage_test (userMessage_of req)) as Hu.
  pose proof (contextPack_test (contextPack_of req)) as Hp.
  split; [|split; [|split; [|split]]].
  - intros H. apply coach_chat_no_key.
    destruct (truthy _); [tauto | reflexivity].
  - intros H1 H2. apply coach_chat_bad_userMessage; [tauto|].
    apply (test_false_or_true _ _ Hu H2).
  - intros H1 H2 H3. apply coach_chat_bad_contextPack; [tauto | tauto |].
    apply (test_false_or_true _ _ Hp H3).
  - intros url p k H.
    destruct (fetch_is_past_the_helpers rev e req url p k H) as [H1 [H2 [H3 _]]].
    tauto.
  - intros H1 H2 H3 sb ts Hsb Hts.
    destruct (coach_chat_calls rev e req sb ts) as [url [p [k [Hk _]]]];
      try tauto.
    exists url, p, k. exact Hk.
Qed.

(** C8: with a credential configured, a userMessage that is present and
    a string, but the empty string, is answered 400 "Missing or invalid
    userMessage". *)
Theorem empty_userMessage_rejected (rev : revision) (e : env) (req : request) :
  credential_set e ->
  userMessage_of req = VString [] ->
  coach_chat rev e req = Respond invalid_userMessage /\
  code invalid_userMessage = 400.
Proof.
  intros Hc Hu. split; [|reflexivity].
  apply coach_chat_bad_userMessage.
  - apply credential_test; exact Hc.
  - rewrite Hu. reflexivity.
Qed.

Lemma not_ok_status (r : upstream) :
  ok r = false <-> status r < 200 \/ 299 < status r.
Proof.
  unfold ok. rewrite andb_false_iff, !Z.leb_gt. reflexivity.
Qed.

(** C7: once the upstream call is made, every response whose status is
    outside 200..299 is answered 502 with the upstream status and the
    upstream body text as they came; whatever comes back, the handler
    answers without fetching again. *)
Theorem upstream_failure_is_502
  (rev : revision) (e : env) (req : request)
  (url : jsstring) (p : payload) (k : outcome -> prog) :
  coach_chat rev e req = Fetch url p k ->
  (forall r, status r < 200 \/ 299 < status r ->
     k (Responded r) =
       Respond {| code := 502;
                  sent := GatewayBody (lit "Gemini call failed")
                            (status r) (rawText r) |}) /\
  (forall o, exists resp, k o = Respond resp).
Proof.
  intros H.
  destruct (fetch_is_past_the_helpers rev e req url p k H)
    as [H1 [H2 [H3 [sb [ts [Hsb Hts]]]]]].
  destruct (coach_chat_calls rev e req sb ts H1 H2 H3 Hsb Hts)
    as [url' [p' [k' [Hk [_ [_ [_ [Hrej [Hbad Hall]]]]]]]]].
  rewrite Hk in H. inversion H; subst. split.
  - intros r Hr. apply Hbad. apply not_ok_status. exact Hr.
  - intros [|r]; [exists unexpected_error; exact Hrej | apply Hall].
Qed.

(** C10: on a request that passes the three checks and whose thread has
    a turns field that is neither absent nor null nor an array, thread
    normalization throws a TypeError and the handler, whose catch
    receives it (or the exception of the system block built just
    before), answers 500 "Unexpected error", not a 400. *)
Theorem non_array_turns_is_500 (rev : revision) (e : env) (req : request) :
  credential_set e ->
  valid_userMessage (userMessage_of req) ->
  valid_contextPack (contextPack_of req) ->
  nullish (opt_member (thread_of req) turns) = false ->
  is_array (opt_member (thread_of req) turns) = false ->
  normalizeThread (thread_of req) = Throw TypeError /\
  coach_chat rev e req =
    Respond {| code := 500; sent := ErrorBody (lit "Unexpected error") |}.
Proof.
  intros Hc Hu Hp Hn Ha.
  assert (normalizeThread (thread_of req) = Throw TypeError) as Hthrow.
  { unfold normalizeThread, coalesce. rewrite Hn.
    destruct (opt_member (thread_of req) turns); try discriminate; reflexivity. }
  split; [exact Hthrow|].
  apply coach_chat_helper_throws.
  - apply credential_test; exact Hc.
  - apply userMessage_test; exact Hu.
  - apply contextPack_test; exact Hp.
  - right. exists TypeError. exact Hthrow.
Qed.

(** ** Trimming *)

Lemma trimStart_before_text (x : jsstring) (c : code_unit) (r : jsstring) :
  is_whitespace c = false -> trimStart (x ++ c :: r) = trimStart x ++ c :: r.
Proof.
  intros Hc. induction x as [|a x IH]; simpl.
  - rewrite Hc. reflexivity.
  - destruct (is_whitespace a); [exact IH | reflexivity].
Qed.

Lemma trimStart_head (s : jsstring) (c : code_unit) (r : jsstring) :
  trimStart s = c :: r -> is_whitespace c = false.
Proof.
  induction s as [|a s IH]; simpl; [discriminate|].
  destruct (is_whitespace a) eqn:Ha; [exact IH|].
  intros H; inversion H; subst; exact Ha.
Qed.

Lemma trimStart_fixed (s : jsstring) :
  (forall c r, s = c :: r -> is_whitespace c = false) -> trimStart s = s.
Proof.
  destruct s as [|c r]; [reflexivity|]. intros H. simpl.
  rewrite (H c r eq_refl). reflexivity.
Qed.

Lemma trimStart_idempotent (s : jsstring) : trimStart (trimStart s) = trimStart s.
Proof.
  apply trimStart_fixed. intros c r H. apply (trimStart_head s c r H).
Qed.

Lemma trimStart_suffix (s : jsstring) : exists w, s = w ++ trimStart s.
Proof.
  induction s as [|a s [w IH]]; simpl.
  - exists []. reflexivity.
  - destruct (is_whitespace a).
    + exists (a :: w). simpl. f_equal. exact IH.
    + exists []. reflexivity.
Qed.

Lemma trimEnd_prefix (s : jsstring) : exists w, s = trimEnd s ++ w.
Proof.
  unfold trimEnd. destruct (trimStart_suffix (rev s)) as [w Hw].
  exists (rev w). rewrite <- rev_app_distr, <- Hw, rev_involutive. reflexivity.
Qed.

Lemma trimEnd_after_text (r : jsstring) (c : code_unit) (y : jsstring) :
  is_whitespace c = false -> trimEnd (r ++ c :: y) = r ++ c :: trimEnd y.
Proof.
  intros Hc. unfold trimEnd.
  rewrite rev_app_distr. simpl. rewrite <- app_assoc. simpl.
  rewrite (trimStart_before_text (rev y) c (rev r) Hc).
  rewrite rev_app_distr. simpl. rewrite rev_involutive, <- app_assoc.
  reflexivity.
Qed.

Lemma trimEnd_last (s r : jsstring) (c : code_unit) :
  trimEnd s = r ++ [c] -> is_whitespace c = false.
Proof.
  unfold trimEnd. intros H.
  apply (f_equal (@rev code_unit)) in H.
  rewrite rev_involutive, rev_app_distr in H. simpl in H.
  apply (trimStart_head _ _ _ H).
Qed.

Lemma trimEnd_idempotent (s : jsstring) : trimEnd (trimEnd s) = trimEnd s.
Proof.
  unfold trimEnd. rewrite rev_involutive, trimStart_idempotent. reflexivity.
Qed.

(** What [trim] returns has no white space left at either end. *)
Lemma trim_no_outer_whitespace (s : jsstring) : no_outer_whitespace (trim s).
Proof.
  unfold trim. split.
  - intros c r H.
    destruct (trimEnd_prefix (trimStart s)) as [w Hw].
    rewrite H in Hw. simpl in Hw. apply (trimStart_head s c (r ++ w) Hw).
  - intros r c H. apply (trimEnd_last _ _ _ H).
Qed.

Lemma trim_fixed (s : jsstring) : no_outer_whitespace s -> trim s = s.
Proof.
  intros [Hh Hl]. unfold trim. rewrite (trimStart_fixed s Hh).
  unfold trimEnd. rewrite trimStart_fixed; [apply rev_involutive|].
  intros c r H. apply (Hl (rev r) c).
  rewrite <- (rev_involutive s), H. reflexivity.
Qed.

Lemma trim_idempotent (s : jsstring) : trim (trim s) = trim s.
Proof. apply trim_fixed, trim_no_outer_whitespace. Qed.

(** White space around a text that begins and ends with other
    characters is all that [trim] removes. *)
Lemma trim_around_text (x : jsstring) (a : code_unit) (m : jsstring)
      (b : code_unit) (y : jsstring) :
  is_whitespace a = false -> is_whitespace b = false ->
  trim (x ++ (a :: m ++ [b]) ++ y) = trimStart x ++ (a :: m ++ [b]) ++ trimEnd y.
Proof.
  intros Ha Hb. unfold trim. simpl.
  rewrite (trimStart_before_text x a _ Ha).
  replace (trimStart x ++ a :: (m ++ [b]) ++ y)
    with ((trimStart x ++ a :: m) ++ b :: y)
    by (rewrite <- ?app_assoc; simpl; rewrite <- ?app_assoc; reflexivity).
  rewrite (trimEnd_after_text _ b y Hb).
  rewrite <- ?app_assoc. simpl. rewrite <- ?app_assoc. reflexivity.
Qed.

(** ** Further properties of the reply *)

Lemma extractReply_is_replyFor (json : value) (r : jsstring) :
  extractReply json = Ok r -> exists t, r = replyFor t.
Proof.
  intros H.
  destruct (coalesce (candidateParts json) (VArray [])) as [| | | | |ps|] eqn:E;
    try (unfold extractReply in H; rewrite E in H; discriminate).
  rewrite (extractReply_array json ps E) in H.
  destruct (mapM _ ps) as [ss|x]; cbn [bind] in H; [|discriminate].
  inversion H. exists (concat ss). reflexivity.
Qed.

Lemma replyFor_no_outer_whitespace (t : jsstring) :
  no_outer_whitespace (replyFor t).
Proof.
  unfold replyFor. destruct (trim t) eqn:E.
  - replace fallbackReply with (trim fallbackReply) by reflexivity.
    apply trim_no_outer_whitespace.
  - rewrite <- E. apply trim_no_outer_whitespace.
Qed.

Lemma extractReply_of_text (s : jsstring) :
  extractReply (envelope_of_text s) = Ok (replyFor s).
Proof.
  rewrite (extractReply_array (envelope_of_text s)
             [ VObject [prop "text" (VString s)] ] eq_refl).
  cbn [mapM]. change (partText (VObject [prop "text" (VString s)]))
    with (VString s).
  cbn [ToString bind concat]. rewrite app_nil_r. reflexivity.
Qed.

(** X1: a reply that [extractReply] returns neither begins nor ends with
    white space, is left unchanged by [trim], and is a fixed point of
    the extraction: an envelope whose only text is that reply gives the
    same reply again. *)
Theorem reply_is_trimmed_and_stable (json : value) (r : jsstring) :
  extractReply json = Ok r ->
  no_outer_whitespace r /\
  trim r = r /\
  extractReply (envelope_of_text r) = Ok r.
Proof.
  intros H. destruct (extractReply_is_replyFor json r H) as [t ->].
  pose proof (replyFor_no_outer_whitespace t) as Hw.
  pose proof (trim_fixed _ Hw) as Ht.
  split; [exact Hw|]. split; [exact Ht|].
  rewrite extractReply_of_text. f_equal.
  unfold replyFor at 1. rewrite Ht.
  destruct (replyFor t) eqn:E; [|reflexivity].
  exfalso. apply (replyFor_nonempty t E).
Qed.

(** ** Further properties of the system instruction *)

Lemma systemTemplate_blocks (s1 s2 s3 s4 : jsstring) :
  systemTemplate s1 s2 s3 s4 =
  (nl ++ s1 ++ nl ++ nl ++ s2 ++ nl ++ nl) ++ summaryBlock s3 ++ (nl ++ s4 ++ nl).
Proof.
  unfold systemTemplate, summaryBlock. rewrite <- ?app_assoc. reflexivity.
Qed.

Lemma trim_systemTemplate (s1 s2 s3 s4 : jsstring) :
  trim (systemTemplate s1 s2 s3 s4) =
  trimStart (nl ++ s1 ++ nl ++ nl ++ s2 ++ nl ++ nl) ++
  summaryBlock s3 ++ trimEnd (nl ++ s4 ++ nl).
Proof.
  rewrite systemTemplate_blocks.
  assert (exists m, summaryBlock s3 = 82%N :: m ++ [58%N]) as [m Hm].
  { unfold summaryBlock.
    exists (lit "ecent matches:" ++ nl ++ s3 ++ nl ++ nl ++ lit "Constraints").
    change (lit "Recent matches:") with (82%N :: lit "ecent matches:").
    change (lit "Constraints:") with (lit "Constraints" ++ [58%N]).
    rewrite <- ?app_assoc. reflexivity. }
  rewrite Hm. apply trim_around_text; reflexivity.
Qed.

(** X2: the system instruction keeps the block from the first header to
    the second, with the match summary in between, exactly as filled;
    the trim only removes white space in front of it (the blank first
    line and what the persona and profile begin with) and after the
    constraints.  With a persona that begins and constraints that end
    with a character other than white space the instruction is the
    template without its first and last newline. *)
Theorem systemBlock_keeps_summary_block (cp : value) (s1 s2 s3 s4 : jsstring) :
  sectionText cp coachPersona = Ok s1 ->
  sectionText cp playerProfile = Ok s2 ->
  sectionText cp recentMatchesSummary = Ok s3 ->
  sectionText cp constraints = Ok s4 ->
  buildSystemBlock cp =
    Ok (trimStart (nl ++ s1 ++ nl ++ nl ++ s2 ++ nl ++ nl) ++
        summaryBlock s3 ++ trimEnd (nl ++ s4 ++ nl)) /\
  (forall c r1 r4 d,
     s1 = c :: r1 -> is_whitespace c = false ->
     s4 = r4 ++ [d] -> is_whitespace d = false ->
     buildSystemBlock cp =
       Ok (s1 ++ nl ++ nl ++ s2 ++ nl ++ nl ++ summaryBlock s3 ++ nl ++ s4)).
Proof.
  intros H1 H2 H3 H4.
  assert (buildSystemBlock cp = Ok (trim (systemTemplate s1 s2 s3 s4))) as Hb.
  { rewrite buildSystemBlock_sections, H1, H2, H3, H4. reflexivity. }
  rewrite Hb, trim_systemTemplate. split; [reflexivity|].
  intros c r1 r4 d -> Hc -> Hd. f_equal.
  replace (trimStart (nl ++ (c :: r1) ++ nl ++ nl ++ s2 ++ nl ++ nl))
    with ((c :: r1) ++ nl ++ nl ++ s2 ++ nl ++ nl)
    by (simpl; rewrite Hc; reflexivity).
  replace (nl ++ (r4 ++ [d]) ++ nl) with ((nl ++ r4) ++ d :: nl)
    by (rewrite <- ?app_assoc; reflexivity).
  rewrite (trimEnd_after_text _ d nl Hd).
  change (trimEnd nl) with (@nil code_unit).
  rewrite <- ?app_assoc. reflexivity.
Qed.

Lemma printable_coalesce (v : value) :
  printable (coalesce v (VString [])) = printable v.
Proof. destruct v; reflexivity. Qed.

Lemma sectionText_printable (cp : value) (f : field) :
  (printable (opt_member cp f) = true -> exists s, sectionText cp f = Ok s) /\
  (printable (opt_member cp f) = false -> sectionText cp f = Throw TypeError).
Proof.
  unfold sectionText. rewrite <- (printable_coalesce (opt_member cp f)).
  apply ToString_printable.
Qed.

(** X3: [buildSystemBlock] returns exactly when each of the four fields
    of the context pack has a defined string conversion, and throws a
    TypeError as soon as one has not (an object with an own toString
    property, also inside arrays). *)
Theorem systemBlock_returns_iff_printable (cp : value) :
  (forallb (fun f => printable (opt_member cp f)) contextFields = true ->
   exists s, buildSystemBlock cp = Ok s) /\
  (forallb (fun f => printable (opt_member cp f)) contextFields = false ->
   buildSystemBlock cp = Throw TypeError).
Proof.
  rewrite buildSystemBlock_sections. unfold contextFields. cbn [forallb].
  destruct (sectionText_printable cp coachPersona) as [A1 B1].
  destruct (sectionText_printable cp playerProfile) as [A2 B2].
  destruct (sectionText_printable cp recentMatchesSummary) as [A3 B3].
  destruct (sectionText_printable cp constraints) as [A4 B4].
  destruct (printable (opt_member cp coachPersona));
    [destruct (A1 eq_refl) as [s1 ->] | rewrite (B1 eq_refl)];
    cbn [andb bind]; [|split; [discriminate | reflexivity]].
  destruct (printable (opt_member cp playerProfile));
    [destruct (A2 eq_refl) as [s2 ->] | rewrite (B2 eq_refl)];
    cbn [andb bind]; [|split; [discriminate | reflexivity]].
  destruct (printable (opt_member cp recentMatchesSummary));
    [destruct (A3 eq_refl) as [s3 ->] | rewrite (B3 eq_refl)];
    cbn [andb bind]; [|split; [discriminate | reflexivity]].
  destruct (printable (opt_member cp constraints));
    [destruct (A4 eq_refl) as [s4 ->] | rewrite (B4 eq_refl)];
    cbn [andb bind]; [|split; [discriminate | reflexivity]].
  split; [intros _; eexists; reflexivity | discriminate].
Qed.

(** ** Further properties of thread normalization *)

Lemma normalizeTurn_wellformed (t : value) (o : turn) :
  normalizeTurn t = Ok o -> wellformed_turn o.
Proof.
  unfold normalizeTurn, wellformed_turn.
  destruct (turnText t) as [s|x]; cbn [bind]; [|discriminate].
  intros H; inversion H; subst; cbn [role_of parts_of]. split.
  - unfold turnRole. destruct (strict_eq_string _ _); [left | right]; reflexivity.
  - exists s. reflexivity.
Qed.

Lemma normalizeThread_cases (th : value) (outs : list turn) :
  normalizeThread th = Ok outs ->
  exists ts,
    coalesce (opt_member th turns) (VArray []) = VArray ts /\
    mapM normalizeTurn (slice (-10) ts) = Ok outs.
Proof.
  unfold normalizeThread.
  destruct (coalesce (opt_member th turns) (VArray [])) as [| | | |s|ts|];
    cbn [slice_method bind map_method]; try discriminate.
  intros H. exists ts. split; [reflexivity | exact H].
Qed.

Lemma normalizeThread_length (th : value) (outs : list turn) :
  normalizeThread th = Ok outs -> (length outs <= 10)%nat.
Proof.
  intros H. destruct (normalizeThread_cases th outs H) as [ts [_ Hm]].
  apply mapM_Forall2 in Hm. rewrite <- (Forall2_length Hm).
  destruct (slice_last_ten ts) as [_ [_ Hlen]]. rewrite Hlen. lia.
Qed.

Lemma normalizeThread_turns_wellformed (th : value) (outs : list turn) :
  normalizeThread th = Ok outs -> Forall wellformed_turn outs.
Proof.
  intros H. destruct (normalizeThread_cases th outs H) as [ts [_ Hm]].
  apply mapM_Forall2 in Hm. clear H.
  induction Hm as [|t o l outs' Hto _ IH]; [constructor|].
  constructor; [apply (normalizeTurn_wellformed t o Hto) | exact IH].
Qed.

(** X4: whatever thread is given, a normalization that returns gives at
    most ten turns, each with the role user or model and exactly one
    part whose text is a string. *)
Theorem normalizeThread_wellformed (th : value) (outs : list turn) :
  normalizeThread th = Ok outs ->
  (length outs <= 10)%nat /\ Forall wellformed_turn outs.
Proof.
  intros H. split.
  - apply (normalizeThread_length th outs H).
  - apply (normalizeThread_turns_wellformed th outs H).
Qed.

Lemma slice_drops_prefix {A} (dropped kept : list A) :
  (10 <= length kept)%nat -> slice (-10) (dropped ++ kept) = slice (-10) kept.
Proof.
  intros H. unfold slice. replace (-10 <? 0) with true by reflexivity.
  rewrite length_app.
  replace (Z.to_nat (Z.max (Z.of_nat (length dropped + length kept) + -10) 0))
    with (length dropped + (length kept - 10))%nat by lia.
  replace (Z.to_nat (Z.max (Z.of_nat (length kept) + -10) 0))
    with (length kept - 10)%nat by lia.
  rewrite skipn_app.
  replace (length dropped + (length kept - 10) - length dropped)%nat
    with (length kept - 10)%nat by lia.
  rewrite skipn_all2 by lia. reflexivity.
Qed.

(** X5: turns older than the last ten are never looked at: a thread
    whose turn list is a prefix followed by ten or more turns normalizes
    exactly as the thread with those later turns alone, whatever the
    prefix holds, also turns whose text cannot be converted. *)
Theorem normalizeThread_ignores_dropped
  (th th' : value) (dropped kept : list value) :
  opt_member th turns = VArray (dropped ++ kept) ->
  opt_member th' turns = VArray kept ->
  (10 <= length kept)%nat ->
  normalizeThread th = normalizeThread th'.
Proof.
  intros H H' Hlen.
  rewrite (normalizeThread_array th _ H), (normalizeThread_array th' _ H').
  rewrite (slice_drops_prefix dropped kept Hlen). reflexivity.
Qed.

Lemma turnText_printable (t : value) :
  (printable (opt_member t text) = true -> exists s, turnText t = Ok s) /\
  (printable (opt_member t text) = false -> turnText t = Throw TypeError).
Proof.
  unfold turnText. rewrite <- (printable_coalesce (opt_member t text)).
  apply ToString_printable.
Qed.

Lemma mapM_normalizeTurn_printable (l : list value) :
  (forallb (fun t => printable (opt_member t text)) l = true ->
   exists outs, mapM normalizeTurn l = Ok outs) /\
  (forallb (fun t => printable (opt_member t text)) l = false ->
   mapM normalizeTurn l = Throw TypeError).
Proof.
  induction l as [|t l [IH1 IH2]]; cbn [forallb mapM].
  - split; [intros _; eexists; reflexivity | discriminate].
  - unfold normalizeTurn at 1 3.
    destruct (turnText_printable t) as [A B].
    destruct (printable (opt_member t text));
      [destruct (A eq_refl) as [s ->] | rewrite (B eq_refl)];
      cbn [andb bind]; [|split; [discriminate | reflexivity]].
    split.
    + intros H. destruct (IH1 H) as [outs ->]. eexists; reflexivity.
    + intros H. rewrite (IH2 H). reflexivity.
Qed.

(** X6: on a thread whose turns is an array, normalization returns
    exactly when the text of each of the turns it keeps has a defined
    string conversion, and throws a TypeError otherwise. *)
Theorem normalizeThread_returns_iff_printable (th : value) (ts : list value) :
  opt_member th turns = VArray ts ->
  (kept_texts_printable ts = true -> exists outs, normalizeThread th = Ok outs) /\
  (kept_texts_printable ts = false -> normalizeThread th = Throw TypeError).
Proof.
  intros H. rewrite (normalizeThread_array th ts H).
  apply mapM_normalizeTurn_printable.
Qed.

(** ** Further properties of the handler *)

(** The handler at the point of its fetch, with what it does with each
    outcome. *)
Lemma coach_chat_earlier_fetch e req sb ts :
  truthy (env_value (GEMINI_API_KEY e)) = true ->
  negb (truthy (userMessage_of req)) ||
  negb (js_type_eqb (typeof (userMessage_of req)) TString) = false ->
  negb (truthy (contextPack_of req)) ||
  negb (js_type_eqb (typeof (contextPack_of req)) TObject) = false ->
  buildSystemBlock (contextPack_of req) = Ok sb ->
  normalizeThread (thread_of req) = Ok ts ->
  exists url p k,
    coach_chat earlier e req = Fetch url p k /\
    config p = config_of earlier /\
    (forall r, ok r = true -> JSON_parse (rawText r) = None ->
       k (Responded r) = Respond unexpected_error) /\
    (forall r json x, ok r = true -> JSON_parse (rawText r) = Some json ->
       inlineReply json = Throw x ->
       k (Responded r) = Respond unexpected_error) /\
    (forall r json reply, ok r = true -> JSON_parse (rawText r) = Some json ->
       inlineReply json = Ok reply ->
       k (Responded r) = Respond (plain_reply reply)).
Proof.
  unfold userMessage_of, contextPack_of, thread_of. intros H1 H2 H3 Hsb Hts.
  destruct (GEMINI_API_KEY e) as [key|] eqn:Hkey; [|discriminate].
  cbn [env_value] in H1.
  unfold coach_chat, coach_chat_earlier.
  rewrite Hkey; cbn [env_value]; rewrite H1; cbn [negb]; cbv zeta;
    rewrite H2, H3, Hsb, Hts; cbn [run ToString try_catch].
  do 3 eexists. split; [reflexivity|]. split; [reflexivity|].
  split; [|split].
  - intros r Hr Hp. rewrite Hr. cbn [negb]. rewrite Hp. reflexivity.
  - intros r json x Hr Hp Hx. rewrite Hr. cbn [negb]. rewrite Hp, Hx. reflexivity.
  - intros r json reply Hr Hp Hx. rewrite Hr. cbn [negb]. rewrite Hp, Hx.
    reflexivity.
Qed.

Lemma coach_chat_later_fetch e req sb ts :
  truthy (env_value (GEMINI_API_KEY e)) = true ->
  negb (truthy (userMessage_of req)) ||
  negb (js_type_eqb (typeof (userMessage_of req)) TString) = false ->
  negb (truthy (contextPack_of req)) ||
  negb (js_type_eqb (typeof (contextPack_of req)) TObject) = false ->
  buildSystemBlock (contextPack_of req) = Ok sb ->
  normalizeThread (thread_of req) = Ok ts ->
  exists url p k,
    coach_chat later e req = Fetch url p k /\
    config p = config_of later /\
    (forall r, ok r = true -> JSON_parse (rawText r) = None ->
       k (Responded r) = Respond unexpected_error) /\
    (forall r json x, ok r = true -> JSON_parse (rawText r) = Some json ->
       extractReply json = Throw x ->
       k (Responded r) = Respond unexpected_error) /\
    (forall r json reply x, ok r = true -> JSON_parse (rawText r) = Some json ->
       extractReply json = Ok reply -> debugText req = Throw x ->
       k (Responded r) = Respond unexpected_error) /\
    (forall r json reply d, ok r = true -> JSON_parse (rawText r) = Some json ->
       extractReply json = Ok reply -> debugText req = Ok d ->
       k (Responded r) =
         Respond (if jsstring_eqb d (lit "1")
                  then debug_reply e json reply else plain_reply reply)).
Proof.
  unfold userMessage_of, contextPack_of, thread_of, debugText.
  intros H1 H2 H3 Hsb Hts.
  destruct (GEMINI_API_KEY e) as [key|] eqn:Hkey; [|discriminate].
  cbn [env_value] in H1.
  unfold coach_chat, coach_chat_later.
  rewrite Hkey; cbn [env_value]; rewrite H1; cbn [negb]; cbv zeta;
    rewrite H2, H3, Hsb, Hts; cbn [run ToString try_catch].
  do 3 eexists. split; [reflexivity|]. split; [reflexivity|].
  split; [|split; [|split]].
  - intros r Hr Hp. rewrite Hr. cbn [negb]. rewrite Hp. reflexivity.
  - intros r json x Hr Hp Hx. rewrite Hr. cbn [negb]. rewrite Hp, Hx. reflexivity.
  - intros r json reply x Hr Hp Hx Hd. rewrite Hr. cbn [negb].
    rewrite Hp, Hx. cbn [run]. rewrite Hd. reflexivity.
  - intros r json reply d Hr Hp Hx Hd. rewrite Hr. cbn [negb].
    rewrite Hp, Hx. cbn [run]. rewrite Hd. cbn [run].
    destruct (jsstring_eqb d (lit "1")); reflexivity.
Qed.

(** Either every revision answers the same 400 or 500 without
    fetching, or the checks and both helpers have passed. *)
Lemma coach_chat_paths e req :
  (exists resp,
     (code resp = 400 \/ code resp = 500) /\
     forall rev, coach_chat rev e req = Respond resp) \/
  (truthy (env_value (GEMINI_API_KEY e)) = true /\
   negb (truthy (userMessage_of req)) ||
   negb (js_type_eqb (typeof (userMessage_of req)) TString) = false /\
   negb (truthy (contextPack_of req)) ||
   negb (js_type_eqb (typeof (contextPack_of req)) TObject) = false /\
   exists sb ts,
     buildSystemBlock (contextPack_of req) = Ok sb /\
     normalizeThread (thread_of req) = Ok ts).
Proof.
  destruct (truthy (env_value (GEMINI_API_KEY e))) eqn:E1;
    [|left; exists missing_credential; split; [right; reflexivity|];
      intros rev; apply coach_chat_no_key; exact E1].
  destruct (negb (truthy (userMessage_of req)) || _) eqn:E2;
    [left; exists invalid_userMessage; split; [left; reflexivity|];
     intros rev; apply coach_chat_bad_userMessage; assumption|].
  destruct (negb (truthy (contextPack_of req)) || _) eqn:E3;
    [left; exists invalid_contextPack; split; [left; reflexivity|];
     intros rev; apply coach_chat_bad_contextPack; assumption|].
  destruct (buildSystemBlock (contextPack_of req)) as [sb|x] eqn:Hsb;
    [|left; exists unexpected_error; split; [right; reflexivity|];
      intros rev; apply coach_chat_helper_throws; try assumption;
      left; exists x; exact Hsb].
  destruct (normalizeThread (thread_of req)) as [ts|x] eqn:Hts;
    [|left; exists unexpected_error; split; [right; reflexivity|];
      intros rev; apply coach_chat_helper_throws; try assumption;
      right; exists x; exact Hts].
  right. split; [reflexivity|]. split; [reflexivity|]. split; [reflexivity|].
  exists sb, ts. split; first [assumption | reflexivity].
Qed.

Lemma inlineReply_nonempty (json : value) (r : jsstring) :
  inlineReply json = Ok r -> r <> [].
Proof.
  intros H.
  destruct (candidateParts json) as [| | | | |ps|] eqn:E;
    try (unfold inlineReply in H; rewrite E in H;
         cbn [nullish map_method bind] in H;
         first [discriminate | inversion H; discriminate]).
  rewrite (inlineReply_array json ps E) in H.
  destruct (mapM _ ps) as [ss|x]; cbn [bind] in H; [|discriminate].
  destruct (concat ss); inversion H; discriminate.
Qed.

(** X7: what is sent upstream.  The URL is the endpoint of the
    configured model (gemini-2.5-flash when none is set) with the
    configured key; the contents are the normalized thread followed by
    one user turn holding the userMessage as it came, so between one
    and eleven well-formed turns of which the last is the user's; the
    system instruction is the assembled block; and the generation
    parameters are those of the revision. *)
Theorem upstream_request_shape
  (rev : revision) (e : env) (req : request)
  (url : jsstring) (p : payload) (k : outcome -> prog) :
  coach_chat rev e req = Fetch url p k ->
  exists key um ts,
    GEMINI_API_KEY e = Some key /\ key <> [] /\
    url = endpoint (model_of e) key /\
    (GEMINI_MODEL e = None -> model_of e = lit "gemini-2.5-flash") /\
    userMessage_of req = VString um /\ um <> [] /\
    normalizeThread (thread_of req) = Ok ts /\
    contents p =
      ts ++ [ {| role_of := lit "user";
                 parts_of := [ {| text_of := VString um |} ] |} ] /\
    (1 <= length (contents p) <= 11)%nat /\
    Forall wellformed_turn (contents p) /\
    buildSystemBlock (contextPack_of req) = Ok (systemInstruction p) /\
    config p = config_of rev.
Proof.
  intros H.
  destruct (fetch_is_past_the_helpers rev e req url p k H)
    as [H1 [H2 [H3 [sb [ts [Hsb Hts]]]]]].
  destruct (proj1 (credential_test e) H1) as [key [Hkey Hne]].
  destruct (proj1 (userMessage_test _) H2) as [um [Hum Humne]].
  destruct (coach_chat_calls rev e req sb ts H1 H2 H3 Hsb Hts)
    as [url' [p' [k' [Hk [Hurl [Hsys [Hc _]]]]]]].
  assert (config p = config_of rev) as Hcfg.
  { destruct rev.
    - destruct (coach_chat_earlier_fetch e req sb ts H1 H2 H3 Hsb Hts)
        as [u2 [p2 [k2 [Hk2 [Hc2 _]]]]].
      rewrite Hk2 in H. injection H as _ Ep _. rewrite <- Ep. exact Hc2.
    - destruct (coach_chat_later_fetch e req sb ts H1 H2 H3 Hsb Hts)
        as [u2 [p2 [k2 [Hk2 [Hc2 _]]]]].
      rewrite Hk2 in H. injection H as _ Ep _. rewrite <- Ep. exact Hc2. }
  rewrite Hk in H. injection H as Eu Ep Ek.
  rewrite Eu in Hurl. rewrite Ep in Hsys, Hc. clear Eu Ep Ek Hk.
  rewrite Hkey in Hurl. rewrite Hum in Hc. unfold userTurn in Hc.
  exists key, um, ts.
  split; [exact Hkey|]. split; [exact Hne|]. split; [exact Hurl|].
  split; [intros Hm; unfold model_of; rewrite Hm; reflexivity|].
  split; [exact Hum|]. split; [exact Humne|]. split; [exact Hts|].
  split; [exact Hc|]. split; [|split; [|split; [|exact Hcfg]]].
  - rewrite Hc, length_app. simpl.
    pose proof (normalizeThread_length _ _ Hts). lia.
  - rewrite Hc. apply Forall_app. split.
    + apply (normalizeThread_turns_wellformed _ _ Hts).
    + constructor; [|constructor]. split; [left; reflexivity|].
      exists um. reflexivity.
  - rewrite Hsys. exact Hsb.
Qed.

(** X8: the two revisions differ only after a successful upstream
    response.  Whatever one answers without fetching the other answers
    too; when one fetches, the other fetches the same URL with the same
    system instruction and contents, and both answer a rejected fetch
    and an upstream failure alike. *)
Theorem revisions_agree_until_success (e : env) (req : request) :
  (forall resp,
     coach_chat earlier e req = Respond resp <->
     coach_chat later e req = Respond resp) /\
  (forall url p k,
     coach_chat earlier e req = Fetch url p k ->
     exists p' k',
       coach_chat later e req = Fetch url p' k' /\
       systemInstruction p' = systemInstruction p /\
       contents p' = contents p /\
       k' Rejected = k Rejected /\
       (forall r, ok r = false -> k' (Responded r) = k (Responded r))).
Proof.
  destruct (coach_chat_paths e req)
    as [[resp0 [_ Hall]] | [H1 [H2 [H3 [sb [ts [Hsb Hts]]]]]]].
  - split.
    + intros resp. rewrite (Hall earlier), (Hall later). reflexivity.
    + intros url p k H. rewrite (Hall earlier) in H. discriminate.
  - destruct (coach_chat_calls earlier e req sb ts H1 H2 H3 Hsb Hts)
      as [u1 [p1 [k1 [Hk1 [Hu1 [Hs1 [Hc1 [Hr1 [Hb1 _]]]]]]]]].
    destruct (coach_chat_calls later e req sb ts H1 H2 H3 Hsb Hts)
      as [u2 [p2 [k2 [Hk2 [Hu2 [Hs2 [Hc2 [Hr2 [Hb2 _]]]]]]]]].
    split.
    + intros resp. rewrite Hk1, Hk2. split; discriminate.
    + intros url p k H. rewrite Hk1 in H. injection H as Eu Ep Ek.
      exists p2, k2. rewrite <- Eu, <- Ep, <- Ek.
      split; [rewrite Hk2, Hu1, Hu2; reflexivity|].
      split; [congruence|]. split; [congruence|]. split; [congruence|].
      intros r Hr. rewrite (Hb1 r Hr), (Hb2 r Hr). reflexivity.
Qed.

(** X9: no exception leaves the handler and every run ends in one
    response.  Without a fetch the answer is a 400 or a 500; after the
    fetch it is a 200 carrying a non-empty reply, which needs an
    upstream response in the success range, or a 502, which needs one
    outside it, or a 500. *)
Theorem every_run_ends_in_a_response
  (rev : revision) (e : env) (req : request) :
  (exists resp,
     coach_chat rev e req = Respond resp /\
     (code resp = 400 \/ code resp = 500)) \/
  (exists url p k,
     coach_chat rev e req = Fetch url p k /\
     forall o, exists resp,
       k o = Respond resp /\
       ((code resp = 200 /\ carries_reply resp /\
         exists r, o = Responded r /\ ok r = true) \/
        code resp = 500 \/
        (code resp = 502 /\ exists r, o = Responded r /\ ok r = false))).
Proof.
  destruct (coach_chat_paths e req)
    as [[resp0 [Hcode Hall]] | [H1 [H2 [H3 [sb [ts [Hsb Hts]]]]]]].
  - left. exists resp0. split; [apply Hall | exact Hcode].
  - right.
    destruct (coach_chat_calls rev e req sb ts H1 H2 H3 Hsb Hts)
      as [url [p [k [Hk [_ [_ [_ [Hrej [Hbad _]]]]]]]]].
    exists url, p, k. split; [exact Hk|].
    intros [|r].
    { exists unexpected_error. split; [exact Hrej | right; left; reflexivity]. }
    destruct (ok r) eqn:Hr.
    2:{ exists (bad_gateway r). split; [apply Hbad; exact Hr|].
        right; right. split; [reflexivity|]. exists r. split; [reflexivity | exact Hr]. }
    destruct (JSON_parse (rawText r)) as [json|] eqn:Hp.
    2:{ exists unexpected_error. split; [|right; left; reflexivity].
        destruct rev.
        - destruct (coach_chat_earlier_fetch e req sb ts H1 H2 H3 Hsb Hts)
            as [u2 [p2 [k2 [Hk2 [_ [Hnone _]]]]]].
          rewrite Hk2 in Hk. injection Hk as _ _ Ek. rewrite <- Ek.
          apply Hnone; first [assumption | reflexivity].
        - destruct (coach_chat_later_fetch e req sb ts H1 H2 H3 Hsb Hts)
            as [u2 [p2 [k2 [Hk2 [_ [Hnone _]]]]]].
          rewrite Hk2 in Hk. injection Hk as _ _ Ek. rewrite <- Ek.
          apply Hnone; first [assumption | reflexivity]. }
    destruct rev.
    + destruct (coach_chat_earlier_fetch e req sb ts H1 H2 H3 Hsb Hts)
        as [u2 [p2 [k2 [Hk2 [_ [_ [Hthrow Hreply]]]]]]].
      rewrite Hk2 in Hk. injection Hk as _ _ Ek. rewrite <- Ek.
      destruct (inlineReply json) as [reply|x] eqn:Hx.
      * exists (plain_reply reply). split; [apply (Hreply r json); first [assumption | reflexivity]|].
        left. split; [reflexivity|]. split.
        -- apply (inlineReply_nonempty json reply Hx).
        -- exists r. split; [reflexivity | exact Hr].
      * exists unexpected_error.
        split; [apply (Hthrow r json x); first [assumption | reflexivity] | right; left; reflexivity].
    + destruct (coach_chat_later_fetch e req sb ts H1 H2 H3 Hsb Hts)
        as [u2 [p2 [k2 [Hk2 [_ [_ [Hthrow [Hdthrow Hreply]]]]]]]].
      rewrite Hk2 in Hk. injection Hk as _ _ Ek. rewrite <- Ek.
      destruct (extractReply json) as [reply|x] eqn:Hx.
      2:{ exists unexpected_error.
          split; [apply (Hthrow r json x); first [assumption | reflexivity] | right; left; reflexivity]. }
      assert (reply <> []) as Hne.
      { destruct (extractReply_is_replyFor json reply Hx) as [t ->].
        apply replyFor_nonempty. }
      destruct (debugText req) as [d|x] eqn:Hd.
      2:{ exists unexpected_error.
          split; [apply (Hdthrow r json reply x); first [assumption | reflexivity]
                 | right; left; reflexivity]. }
      eexists. split; [apply (Hreply r json reply d); first [assumption | reflexivity]|].
      left. destruct (jsstring_eqb d (lit "1"));
        (split; [reflexivity|]; split; [exact Hne|];
         exists r; split; [reflexivity | exact Hr]).
Qed.

Lemma extraction_throws_on_non_array (json : value) :
  nullish (candidateParts json) = false ->
  is_array (candidateParts json) = false ->
  extractReply json = Throw TypeError /\ inlineReply json = Throw TypeError.
Proof.
  intros Hn Ha. unfold extractReply, inlineReply, coalesce. rewrite Hn.
  destruct (candidateParts json); try discriminate; split; reflexivity.
Qed.

(** The continuation of a fetching handler, by revision. *)
Lemma fetch_continuation_earlier e req url p k :
  coach_chat earlier e req = Fetch url p k ->
  (forall r, ok r = true -> JSON_parse (rawText r) = None ->
     k (Responded r) = Respond unexpected_error) /\
  (forall r json x, ok r = true -> JSON_parse (rawText r) = Some json ->
     inlineReply json = Throw x ->
     k (Responded r) = Respond unexpected_error) /\
  (forall r json reply, ok r = true -> JSON_parse (rawText r) = Some json ->
     inlineReply json = Ok reply ->
     k (Responded r) = Respond (plain_reply reply)).
Proof.
  intros H.
  destruct (fetch_is_past_the_helpers earlier e req url p k H)
    as [H1 [H2 [H3 [sb [ts [Hsb Hts]]]]]].
  destruct (coach_chat_earlier_fetch e req sb ts H1 H2 H3 Hsb Hts)
    as [u2 [p2 [k2 [Hk2 [_ Hrest]]]]].
  rewrite Hk2 in H. injection H as _ _ Ek. rewrite <- Ek. exact Hrest.
Qed.

Lemma fetch_continuation_later e req url p k :
  coach_chat later e req = Fetch url p k ->
  (forall r, ok r = true -> JSON_parse (rawText r) = None ->
     k (Responded r) = Respond unexpected_error) /\
  (forall r json x, ok r = true -> JSON_parse (rawText r) = Some json ->
     extractReply json = Throw x ->
     k (Responded r) = Respond unexpected_error) /\
  (forall r json reply x, ok r = true -> JSON_parse (rawText r) = Some json ->
     extractReply json = Ok reply -> debugText req = Throw x ->
     k (Responded r) = Respond unexpected_error) /\
  (forall r json reply d, ok r = true -> JSON_parse (rawText r) = Some json ->
     extractReply json = Ok reply -> debugText req = Ok d ->
     k (Responded r) =
       Respond (if jsstring_eqb d (lit "1")
                then debug_reply e json reply else plain_reply reply)).
Proof.
  intros H.
  destruct (fetch_is_past_the_helpers later e req url p k H)
    as [H1 [H2 [H3 [sb [ts [Hsb Hts]]]]]].
  destruct (coach_chat_later_fetch e req sb ts H1 H2 H3 Hsb Hts)
    as [u2 [p2 [k2 [Hk2 [_ Hrest]]]]].
  rewrite Hk2 in H. injection H as _ _ Ek. rewrite <- Ek. exact Hrest.
Qed.

(** X10: an upstream answer the handler cannot use is answered 500
    "Unexpected error" in both revisions: a fetch that rejects, a body
    in the success range that is not JSON, and a JSON body whose
    candidates[0].content.parts is present but not an array. *)
Theorem unusable_upstream_answer_is_500
  (rev : revision) (e : env) (req : request)
  (url : jsstring) (p : payload) (k : outcome -> prog) :
  coach_chat rev e req = Fetch url p k ->
  k Rejected = Respond unexpected_error /\
  (forall r, ok r = true -> JSON_parse (rawText r) = None ->
     k (Responded r) = Respond unexpected_error) /\
  (forall r json, ok r = true -> JSON_parse (rawText r) = Some json ->
     nullish (candidateParts json) = false ->
     is_array (candidateParts json) = false ->
     k (Responded r) = Respond unexpected_error).
Proof.
  intros H. split; [|split].
  - destruct (fetch_is_past_the_helpers rev e req url p k H)
      as [H1 [H2 [H3 [sb [ts [Hsb Hts]]]]]].
    destruct (coach_chat_calls rev e req sb ts H1 H2 H3 Hsb Hts)
      as [u2 [p2 [k2 [Hk2 [_ [_ [_ [Hrej _]]]]]]]].
    rewrite Hk2 in H. injection H as _ _ Ek. rewrite <- Ek. exact Hrej.
  - destruct rev.
    + apply (fetch_continuation_earlier e req url p k H).
    + apply (fetch_continuation_later e req url p k H).
  - intros r json Hr Hp Hn Ha.
    destruct (extraction_throws_on_non_array json Hn Ha) as [Hx Hi].
    destruct rev.
    + apply (proj1 (proj2 (fetch_continuation_earlier e req url p k H))
               r json TypeError Hr Hp Hi).
    + apply (proj1 (proj2 (fetch_continuation_later e req url p k H))
               r json TypeError Hr Hp Hx).
Qed.

(** X11: the later revision, on an upstream response in the success
    range whose parsed body gives a reply, answers 200 with that reply.
    It adds the debug fields exactly when the text of the debug query
    parameter is the string 1: then the model is the configured one (or
    the default), the raw field is the parsed body unchanged, and the
    finish reason and usage are those of the body or null.  Without the
    parameter the answer is the plain reply. *)
Theorem later_reply_and_debug
  (e : env) (req : request) (url : jsstring) (p : payload)
  (k : outcome -> prog) (r : upstream) (json : value) (reply : jsstring) :
  coach_chat later e req = Fetch url p k ->
  ok r = true ->
  JSON_parse (rawText r) = Some json ->
  extractReply json = Ok reply ->
  (debugText req = Ok (lit "1") ->
   k (Responded r) =
     Respond {| code := 200;
                sent := DebugBody reply (model_of e)
                          (coalesce
                             (opt_member (opt_first (opt_member json candidates))
                                finishReason) VNull)
                          (coalesce (opt_member json usageMetadata) VNull)
                          json |}) /\
  (forall d, debugText req = Ok d -> d <> lit "1" ->
     k (Responded r) = Respond {| code := 200; sent := ReplyBody reply |}) /\
  (nullish (query_debug req) = true ->
   k (Responded r) = Respond {| code := 200; sent := ReplyBody reply |}).
Proof.
  intros H Hr Hp Hx.
  destruct (fetch_continuation_later e req url p k H) as [_ [_ [_ Hd]]].
  split; [|split].
  - intros Hone. rewrite (Hd r json reply (lit "1") Hr Hp Hx Hone). reflexivity.
  - intros d Hdt Hne. rewrite (Hd r json reply d Hr Hp Hx Hdt).
    destruct (jsstring_eqb d (lit "1")) eqn:E; [|reflexivity].
    apply jsstring_eqb_eq in E. contradiction.
  - intros Hn.
    assert (debugText req = Ok []) as Hdt
      by (unfold debugText, coalesce; rewrite Hn; reflexivity).
    rewrite (Hd r json reply [] Hr Hp Hx Hdt). reflexivity.
Qed.

(** X12: the earlier revision, on an upstream response in the success
    range, answers 200 with its fallback literal when the parsed body
    has no parts, and otherwise with the texts of the parts
    concatenated as they are, white space at the ends included (the
    fallback again when the concatenation is empty); the debug query
    parameter changes nothing. *)
Theorem earlier_reply_is_untrimmed
  (e : env) (req : request) (url : jsstring) (p : payload)
  (k : outcome -> prog) (r : upstream) (json : value) :
  coach_chat earlier e req = Fetch url p k ->
  ok r = true ->
  JSON_parse (rawText r) = Some json ->
  (nullish (candidateParts json) = true ->
   k (Responded r) =
     Respond {| code := 200; sent := ReplyBody fallbackReply_earlier |}) /\
  (forall ps,
     candidateParts json = VArray ps ->
     Forall (fun p => exists s, partText p = VString s) ps ->
     k (Responded r) =
       Respond {| code := 200;
                  sent := ReplyBody
                            match concat (map textString ps) with
                            | [] => fallbackReply_earlier
                            | t => t
                            end |}).
Proof.
  intros H Hr Hp.
  destruct (fetch_continuation_earlier e req url p k H) as [_ [_ Hd]].
  split.
  - intros Hn. apply (Hd r json fallbackReply_earlier Hr Hp).
    unfold inlineReply. rewrite Hn. reflexivity.
  - intros ps Hps Hs.
    apply (Hd r json _ Hr Hp).
    rewrite (inlineReply_array json ps Hps), (mapM_string_texts ps Hs).
    reflexivity.
Qed.

(** ** The application around the handler *)

Lemma jsstring_eqb_refl (a : jsstring) : jsstring_eqb a a = true.
Proof. apply jsstring_eqb_eq. reflexivity. Qed.

Lemma jsstring_eqb_neq (a b : jsstring) : a <> b -> jsstring_eqb a b = false.
Proof.
  intros H. destruct (jsstring_eqb a b) eqn:E; [|reflexivity].
  apply jsstring_eqb_eq in E. contradiction.
Qed.

(** Reading a header back after setting it, under any spelling of its
    name, and reading another one. *)
Lemma getHeader_setHeader_same (n n' v : jsstring) (hs : headers) :
  toLowerCase n' = toLowerCase n ->
  getHeader n' (setHeader n v hs) = Some v.
Proof.
  intros H. induction hs as [|[k nv] rest IH]; simpl.
  - rewrite H, jsstring_eqb_refl. reflexivity.
  - destruct (jsstring_eqb k (toLowerCase n)) eqn:E; simpl; rewrite H, E.
    + reflexivity.
    + exact IH.
Qed.

Lemma getHeader_setHeader_other (n n' v : jsstring) (hs : headers) :
  toLowerCase n' <> toLowerCase n ->
  getHeader n' (setHeader n v hs) = getHeader n' hs.
Proof.
  intros H. induction hs as [|[k nv] rest IH]; simpl.
  - rewrite jsstring_eqb_neq by congruence. reflexivity.
  - destruct (jsstring_eqb k (toLowerCase n)) eqn:E; simpl.
    + apply jsstring_eqb_eq in E. subst k.
      rewrite jsstring_eqb_neq by congruence. reflexivity.
    + destruct (jsstring_eqb k (toLowerCase n')); [reflexivity | exact IH].
Qed.

(** X13: whatever headers the response already has, after the CORS
    middleware the three Access-Control headers read, under any
    spelling of their names, as the fixed values; every other header
    reads as before; and the middleware answers 204 with an empty body
    exactly for the method OPTIONS, calling next for every other. *)
Theorem cors_sets_headers (m : jsstring) (hs : headers) :
  (forall n, toLowerCase n = lit "access-control-allow-origin" ->
     getHeader n (fst (cors m hs)) = Some (lit "*")) /\
  (forall n, toLowerCase n = lit "access-control-allow-methods" ->
     getHeader n (fst (cors m hs)) = Some (lit "POST, GET, OPTIONS")) /\
  (forall n, toLowerCase n = lit "access-control-allow-headers" ->
     getHeader n (fst (cors m hs)) = Some (lit "Content-Type, Authorization")) /\
  (forall n,
     toLowerCase n <> lit "access-control-allow-origin" ->
     toLowerCase n <> lit "access-control-allow-methods" ->
     toLowerCase n <> lit "access-control-allow-headers" ->
     getHeader n (fst (cors m hs)) = getHeader n hs) /\
  (m = lit "OPTIONS" -> snd (cors m hs) = Send 204 []) /\
  (m <> lit "OPTIONS" -> snd (cors m hs) = Next).
Proof.
  assert (fst (cors m hs) =
          setHeader (lit "Access-Control-Allow-Headers")
            (lit "Content-Type, Authorization")
            (setHeader (lit "Access-Control-Allow-Methods")
               (lit "POST, GET, OPTIONS")
               (setHeader (lit "Access-Control-Allow-Origin") (lit "*") hs)))
    as Hfst.
  { unfold cors. destruct (jsstring_eqb m (lit "OPTIONS")); reflexivity. }
  rewrite Hfst.
  split; [|split; [|split; [|split; [|split]]]].
  - intros n Hn.
    rewrite getHeader_setHeader_other by (rewrite Hn; intros F; vm_compute in F; discriminate).
    rewrite getHeader_setHeader_other by (rewrite Hn; intros F; vm_compute in F; discriminate).
    apply getHeader_setHeader_same. rewrite Hn. reflexivity.
  - intros n Hn.
    rewrite getHeader_setHeader_other by (rewrite Hn; intros F; vm_compute in F; discriminate).
    apply getHeader_setHeader_same. rewrite Hn. reflexivity.
  - intros n Hn. apply getHeader_setHeader_same. rewrite Hn. reflexivity.
  - intros n H1 H2 H3.
    rewrite !getHeader_setHeader_other by assumption. reflexivity.
  - intros ->. reflexivity.
  - intros Hm. unfold cors. rewrite (jsstring_eqb_neq _ _ Hm). reflexivity.
Qed.

(** X14: for every request whose body the parser accepted, whatever
    its path, the response carries the three Access-Control headers
    before anything answers; a request of method OPTIONS is answered
    204 with an empty body and reaches no route, so the chat handler
    runs only for another method, on the request's parsed body and
    debug parameter. *)
Theorem preflight_answered_before_routes
  (rev : revision) (e : env) (h : http_request) (b : value) :
  parsed h = Some b ->
  getHeader (lit "Access-Control-Allow-Origin")
    (headers_set (app rev e h)) = Some (lit "*") /\
  getHeader (lit "Access-Control-Allow-Methods")
    (headers_set (app rev e h)) = Some (lit "POST, GET, OPTIONS") /\
  getHeader (lit "Access-Control-Allow-Headers")
    (headers_set (app rev e h)) = Some (lit "Content-Type, Authorization") /\
  (method h = lit "OPTIONS" -> answered (app rev e h) = Plain 204 []) /\
  (forall p, answered (app rev e h) = Chat p ->
     method h <> lit "OPTIONS" /\
     route_matches "POST" "/coach/chat" h = true /\
     p = coach_chat rev e {| body := b; query_debug := debug_param h |}).
Proof.
  intros Hb.
  assert (headers_set (app rev e h) = fst (cors (method h) [])) as Hh.
  { unfold app, cors. rewrite Hb.
    destruct (jsstring_eqb (method h) (lit "OPTIONS")); [reflexivity|].
    destruct (route_matches "GET" "/" h); [reflexivity|].
    destruct (route_matches "GET" "/health" h); [reflexivity|].
    destruct (route_matches "POST" "/coach/chat" h); reflexivity. }
  rewrite Hh.
  split; [unfold cors; destruct (jsstring_eqb _ _); reflexivity|].
  split; [unfold cors; destruct (jsstring_eqb _ _); reflexivity|].
  split; [unfold cors; destruct (jsstring_eqb _ _); reflexivity|].
  split.
  - intros Hm. unfold app, cors. rewrite Hb, Hm. reflexivity.
  - intros p. unfold app, cors. rewrite Hb.
    destruct (jsstring_eqb (method h) (lit "OPTIONS")) eqn:Em;
      cbn [answered]; [discriminate|].
    destruct (route_matches "GET" "/" h); cbn [answered]; [discriminate|].
    destruct (route_matches "GET" "/health" h); cbn [answered]; [discriminate|].
    destruct (route_matches "POST" "/coach/chat" h) eqn:Ec; cbn [answered];
      [|discriminate].
    intros H. injection H as <-. split; [|split; reflexivity].
    intros Hm. rewrite Hm in Em. discriminate.
Qed.

(** ** Inputs that are not plain objects *)

(** X15: a value that is not a plain object (a string, a number, a
    boolean, an array, null or nothing) has none of the fields the
    helpers read: as a context pack it gives the blank system
    instruction, as a thread the empty history, and as an upstream
    envelope the fallback reply of the revision. *)
Theorem non_objects_have_no_fields (v : value) :
  (forall props, v <> VObject props) ->
  buildSystemBlock v =
    Ok (lit "Recent matches:" ++ nl ++ nl ++ nl ++ lit "Constraints:") /\
  normalizeThread v = Ok [] /\
  extractReply v = Ok fallbackReply /\
  inlineReply v = Ok fallbackReply_earlier.
Proof.
  intros H.
  destruct v as [| |b|n|s|l|props];
    try (repeat split; reflexivity).
  exfalso. apply (H props). reflexivity.
Qed.

End Runtime.

(** * The statements at concrete inputs *)

(** The runs the specification lists as testable. *)
Example hello_world :
  extractReply print_integer hello_envelope = Ok (lit "Hello world").
Proof. reflexivity. Qed.

Example no_candidates_falls_back :
  extractReply print_integer (VObject [prop "candidates" (VArray [])]) =
  Ok fallbackReply.
Proof. reflexivity. Qed.

Example shadowed_toString_throws :
  normalizeTurn print_integer shadowed_text_turn = Throw TypeError.
Proof. reflexivity. Qed.

Example body_without_fields :
  coach_chat print_integer parse_hello later env_with_key
    {| body := VObject []; query_debug := VUndefined |} =
  Respond invalid_userMessage.
Proof. reflexivity. Qed.

Example successful_exchange :
  exists url p k,
    coach_chat print_integer parse_hello later env_with_key
      (chat_request VUndefined) = Fetch url p k /\
    k (Responded {| status := 200; rawText := hello_body |}) =
      Respond {| code := 200; sent := ReplyBody (lit "Hello world") |}.
Proof. do 3 eexists. split; reflexivity. Qed.

(** C1, as stated, fails: on an envelope whose parts is a string
    [parts.map] is not a function and [extractReply] does not return. *)
Lemma extractReply_throws_on_string_parts :
  extractReply print_integer string_parts_envelope = Throw TypeError.
Proof. reflexivity. Qed.

(** The amended C1 on the two-part envelope and on a null envelope. *)
Lemma extractReply_trimmed_or_fallback_witness :
  coalesce (candidateParts hello_envelope) (VArray []) =
    VArray [ VObject [prop "text" (str "Hello ")];
             VObject [prop "text" (str "world")] ] /\
  extractReply print_integer hello_envelope =
    Ok (replyFor (lit "Hello " ++ lit "world")) /\
  extractReply print_integer VNull = Ok fallbackReply.
Proof.
  split; [reflexivity|]. split.
  - apply (proj1 (extractReply_trimmed_or_fallback print_integer hello_envelope)
             _ eq_refl).
    repeat constructor; eexists; reflexivity.
  - apply (proj1 (proj2 (extractReply_trimmed_or_fallback print_integer VNull))).
    left. reflexivity.
Defined.

(** C2 on a thread of twelve turns. *)
Lemma normalizeThread_keeps_last_ten_witness :
  opt_member long_thread turns = VArray twelve_turns /\
  (10 < length twelve_turns)%nat /\
  exists dropped kept,
    twelve_turns = dropped ++ kept /\
    length kept = 10%nat /\
    normalizeThread print_integer long_thread =
      mapM (normalizeTurn print_integer) kept.
Proof.
  split; [reflexivity|]. split; [vm_compute; lia|].
  destruct (proj1 (normalizeThread_keeps_last_ten print_integer long_thread)
              twelve_turns eq_refl)
    as [dropped [kept [H1 [H2 [_ [H4 _]]]]]].
  exists dropped, kept. split; [exact H1|]. split; [|exact H4].
  apply H2. vm_compute; lia.
Defined.

(** C3 on a thread whose roles are user, assistant, null and absent. *)
Lemma normalized_role_user_or_model_witness :
  normalizeThread print_integer short_thread = Ok short_thread_normalized /\
  Forall2
    (fun t o =>
       (role_of o = lit "user" <-> opt_member t role = VString (lit "user")) /\
       (opt_member t role <> VString (lit "user") -> role_of o = lit "model"))
    (slice (-10)
       [ VObject [prop "role" (str "user"); prop "text" (str "a")];
         VObject [prop "role" (str "assistant"); prop "text" (str "b")];
         VObject [prop "role" VNull; prop "text" (str "c")];
         VObject [prop "text" (str "d")] ])
    short_thread_normalized.
Proof.
  split; [reflexivity|].
  apply (proj2 (normalized_role_user_or_model print_integer) short_thread);
    reflexivity.
Defined.

(** C4, as stated, fails: a null text normalizes to the empty string,
    which is not the string conversion of null. *)
Lemma null_text_is_not_converted :
  opt_member null_text_turn text = VNull /\
  ToString print_integer VNull = Ok (lit "null") /\
  normalizeTurn print_integer null_text_turn =
    Ok {| role_of := lit "model"; parts_of := [ {| text_of := VString [] |} ] |} /\
  turnText print_integer null_text_turn <>
    ToString print_integer (opt_member null_text_turn text).
Proof.
  repeat split; try reflexivity. discriminate.
Qed.

(** The amended C4 on a numeric text and on a null text. *)
Lemma turn_text_is_conversion_witness :
  nullish (opt_member number_text_turn text) = false /\
  printable (opt_member number_text_turn text) = true /\
  turnText print_integer number_text_turn = Ok (lit "5") /\
  nullish (opt_member null_text_turn text) = true /\
  turnText print_integer null_text_turn = Ok [].
Proof.
  split; [reflexivity|]. split; [reflexivity|]. split; [|split; [reflexivity|]].
  - rewrite (proj1 (proj1 (proj2 (turn_text_is_conversion print_integer
                                    number_text_turn)) eq_refl)).
    reflexivity.
  - apply (proj1 (turn_text_is_conversion print_integer null_text_turn)).
    reflexivity.
Defined.

(** C5 on a request without credential, with an empty userMessage,
    without contextPack, and on a request that reaches the upstream. *)
Lemma checks_in_order_witness :
  coach_chat print_integer parse_hello later env_without_key
    (chat_request VUndefined) = Respond missing_credential /\
  coach_chat print_integer parse_hello later env_with_key
    empty_message_request = Respond invalid_userMessage /\
  coach_chat print_integer parse_hello later env_with_key
    {| body := VObject [prop "userMessage" (str "hi")];
       query_debug := VUndefined |} = Respond invalid_contextPack /\
  exists url p k,
    coach_chat print_integer parse_hello later env_with_key
      (chat_request VUndefined) = Fetch url p k.
Proof.
  assert (credential_set env_with_key) as Hkey.
  { exists (lit "k"). split; [reflexivity | discriminate]. }
  assert (valid_userMessage (str "hi")) as Hhi.
  { exists (lit "hi"). split; [reflexivity | discriminate]. }
  split; [|split; [|split]].
  - apply checks_in_order. intros [k [H _]]. discriminate.
  - apply checks_in_order; [exact Hkey|].
    intros [s [H Hne]]. inversion H. subst. apply Hne. reflexivity.
  - apply checks_in_order; [exact Hkey | exact Hhi |].
    intros [[x H]|[x H]]; discriminate.
  - apply (proj2 (proj2 (proj2 (proj2
             (checks_in_order print_integer parse_hello later env_with_key
                (chat_request VUndefined))))) Hkey Hhi
             (or_introl (ex_intro _ [] eq_refl))
             (lit "Recent matches:" ++ nl ++ nl ++ nl ++ lit "Constraints:") []);
      reflexivity.
Defined.

(** C6 on a ContextPack with a null persona, an empty constraints field
    and the other two fields absent. *)
Lemma systemBlock_constant_template_witness :
  blank (opt_member blank_contextPack coachPersona) /\
  blank (opt_member blank_contextPack playerProfile) /\
  blank (opt_member blank_contextPack recentMatchesSummary) /\
  blank (opt_member blank_contextPack constraints) /\
  buildSystemBlock print_integer blank_contextPack =
    Ok (lit "Recent matches:" ++ nl ++ nl ++ nl ++ lit "Constraints:").
Proof.
  assert (blank (opt_member blank_contextPack coachPersona)) as H1
    by (right; left; reflexivity).
  assert (blank (opt_member blank_contextPack playerProfile)) as H2
    by (left; reflexivity).
  assert (blank (opt_member blank_contextPack recentMatchesSummary)) as H3
    by (left; reflexivity).
  assert (blank (opt_member blank_contextPack constraints)) as H4
    by (right; right; reflexivity).
  split; [exact H1|]. split; [exact H2|]. split; [exact H3|]. split; [exact H4|].
  destruct (proj1 (systemBlock_constant_template print_integer blank_contextPack)
              H1 H2 H3 H4) as [Hb Ht].
  rewrite Hb, Ht. reflexivity.
Defined.

(** C7 on an upstream 503 whose body is the text rate limited. *)
Lemma upstream_failure_is_502_witness :
  exists url p k,
    coach_chat print_integer parse_hello later env_with_key
      (chat_request VUndefined) = Fetch url p k /\
    (status rate_limited < 200 \/ 299 < status rate_limited) /\
    k (Responded rate_limited) =
      Respond {| code := 502;
                 sent := GatewayBody (lit "Gemini call failed") 503
                           (lit "rate limited") |}.
Proof.
  do 3 eexists. split; [reflexivity|]. split; [right; simpl; lia|].
  apply (proj1 (upstream_failure_is_502 print_integer parse_hello later
                  env_with_key (chat_request VUndefined) _ _ _ eq_refl)).
  right. simpl. lia.
Defined.

(** C8 on a body whose userMessage is the empty string. *)
Lemma empty_userMessage_rejected_witness :
  credential_set env_with_key /\
  userMessage_of empty_message_request = VString [] /\
  coach_chat print_integer parse_hello later env_with_key
    empty_message_request = Respond invalid_userMessage.
Proof.
  assert (credential_set env_with_key) as Hkey.
  { exists (lit "k"). split; [reflexivity | discriminate]. }
  split; [exact Hkey|]. split; [reflexivity|].
  apply (empty_userMessage_rejected print_integer parse_hello later
           env_with_key empty_message_request Hkey eq_refl).
Defined.

(** C9, as stated, fails: on a text padded with spaces the earlier
    revision replies the padded text and the later one its trim. *)
Lemma later_trims_where_earlier_does_not :
  inlineReply print_integer padded_envelope = Ok (lit " hi ") /\
  extractReply print_integer padded_envelope = Ok (lit "hi") /\
  extractReply print_integer padded_envelope <>
    inlineReply print_integer padded_envelope.
Proof.
  repeat split; try reflexivity. discriminate.
Qed.

(** The amended C9 on the two-part envelope and on the padded one. *)
Lemma extractReply_refines_inline_witness :
  inlineReply print_integer hello_envelope = Ok (lit "Hello world") /\
  lit "Hello world" <> fallbackReply_earlier /\
  trim (lit "Hello world") = lit "Hello world" /\
  extractReply print_integer hello_envelope =
    inlineReply print_integer hello_envelope /\
  extractReply print_integer padded_envelope = Ok (replyFor (lit " hi ")).
Proof.
  split; [reflexivity|]. split; [discriminate|]. split; [reflexivity|]. split.
  - apply (proj2 (proj2 (extractReply_refines_inline print_integer hello_envelope))
             (lit "Hello world")); [reflexivity | discriminate | reflexivity].
  - apply (proj1 (proj2 (extractReply_refines_inline print_integer padded_envelope))
             (lit " hi ")); [reflexivity | discriminate].
Defined.

(** C10 on a thread whose turns is a string. *)
Lemma non_array_turns_is_500_witness :
  credential_set env_with_key /\
  valid_userMessage (userMessage_of (chat_request string_turns_thread)) /\
  valid_contextPack (contextPack_of (chat_request string_turns_thread)) /\
  nullish (opt_member (thread_of (chat_request string_turns_thread)) turns) = false /\
  is_array (opt_member (thread_of (chat_request string_turns_thread)) turns) = false /\
  normalizeThread print_integer (thread_of (chat_request string_turns_thread)) =
    Throw TypeError /\
  coach_chat print_integer parse_hello later env_with_key
    (chat_request string_turns_thread) =
    Respond {| code := 500; sent := ErrorBody (lit "Unexpected error") |}.
Proof.
  assert (credential_set env_with_key) as Hkey.
  { exists (lit "k"). split; [reflexivity | discriminate]. }
  assert (valid_userMessage (userMessage_of (chat_request string_turns_thread)))
    as Hu.
  { exists (lit "hi"). split; [reflexivity | discriminate]. }
  assert (valid_contextPack (contextPack_of (chat_request string_turns_thread)))
    as Hp.
  { left. exists []. reflexivity. }
  split; [exact Hkey|]. split; [exact Hu|]. split; [exact Hp|].
  split; [reflexivity|]. split; [reflexivity|].
  apply (non_array_turns_is_500 print_integer parse_hello later env_with_key
           (chat_request string_turns_thread) Hkey Hu Hp eq_refl eq_refl).
Defined.

(** * The further properties at concrete inputs *)

(** X1 on the padded envelope, whose reply is the text without its
    spaces. *)
Lemma reply_is_trimmed_and_stable_witness :
  extractReply print_integer padded_envelope = Ok (lit "hi") /\
  trim (lit "hi") = lit "hi" /\
  extractReply print_integer (envelope_of_text (lit "hi")) = Ok (lit "hi").
Proof.
  split; [reflexivity|].
  destruct (reply_is_trimmed_and_stable print_integer padded_envelope
              (lit "hi") eq_refl) as [_ [Ht Hs]].
  split; [exact Ht | exact Hs].
Defined.

(** X2 on a context pack with four texts. *)
Lemma systemBlock_keeps_summary_block_witness :
  sectionText print_integer full_contextPack coachPersona = Ok (lit "Coach") /\
  sectionText print_integer full_contextPack playerProfile = Ok (lit "Pro") /\
  sectionText print_integer full_contextPack recentMatchesSummary =
    Ok (lit " 6-4 ") /\
  sectionText print_integer full_contextPack constraints = Ok (lit "short") /\
  buildSystemBlock print_integer full_contextPack =
    Ok (lit "Coach" ++ nl ++ nl ++ lit "Pro" ++ nl ++ nl ++
        summaryBlock (lit " 6-4 ") ++ nl ++ lit "short").
Proof.
  split; [reflexivity|]. split; [reflexivity|]. split; [reflexivity|].
  split; [reflexivity|].
  apply (proj2 (systemBlock_keeps_summary_block print_integer full_contextPack
                  (lit "Coach") (lit "Pro") (lit " 6-4 ") (lit "short")
                  eq_refl eq_refl eq_refl eq_refl)
           67%N (lit "oach") (lit "shor") 116%N);
    reflexivity.
Defined.

(** X3 on a blank context pack and on one whose constraints shadow
    toString. *)
Lemma systemBlock_returns_iff_printable_witness :
  (exists s, buildSystemBlock print_integer blank_contextPack = Ok s) /\
  buildSystemBlock print_integer shadowed_contextPack = Throw TypeError.
Proof.
  split.
  - apply (proj1 (systemBlock_returns_iff_printable print_integer
                    blank_contextPack)). reflexivity.
  - apply (proj2 (systemBlock_returns_iff_printable print_integer
                    shadowed_contextPack)). reflexivity.
Defined.

(** X4 on the thread of four turns. *)
Lemma normalizeThread_wellformed_witness :
  normalizeThread print_integer short_thread = Ok short_thread_normalized /\
  (length short_thread_normalized <= 10)%nat /\
  Forall wellformed_turn short_thread_normalized.
Proof.
  split; [reflexivity|].
  apply (normalizeThread_wellformed print_integer short_thread). reflexivity.
Defined.

(** X5: a turn that cannot be converted, in front of ten that can,
    changes nothing. *)
Lemma normalizeThread_ignores_dropped_witness :
  (10 <= length (skipn 2 twelve_turns))%nat /\
  normalizeThread print_integer poisoned_thread =
    normalizeThread print_integer recent_thread.
Proof.
  split; [vm_compute; lia|].
  apply (normalizeThread_ignores_dropped print_integer
           poisoned_thread recent_thread [shadowed_text_turn]
           (skipn 2 twelve_turns) eq_refl eq_refl).
  vm_compute; lia.
Defined.

(** X6 on the thread of twelve turns and on a thread whose only turn
    cannot be converted. *)
Lemma normalizeThread_returns_iff_printable_witness :
  (exists outs, normalizeThread print_integer long_thread = Ok outs) /\
  normalizeThread print_integer shadowed_thread = Throw TypeError.
Proof.
  split.
  - apply (proj1 (normalizeThread_returns_iff_printable print_integer
                    long_thread twelve_turns eq_refl)). reflexivity.
  - apply (proj2 (normalizeThread_returns_iff_printable print_integer
                    shadowed_thread [shadowed_text_turn] eq_refl)). reflexivity.
Defined.

(** X7 on a request without thread and an environment without model. *)
Lemma upstream_request_shape_witness :
  exists url p k,
    coach_chat print_integer parse_hello later env_with_key
      (chat_request VUndefined) = Fetch url p k /\
    url = endpoint (lit "gemini-2.5-flash") (lit "k") /\
    contents p = [ {| role_of := lit "user";
                      parts_of := [ {| text_of := str "hi" |} ] |} ] /\
    maxOutputTokens (config p) = 1200.
Proof.
  do 3 eexists. split; [reflexivity|].
  destruct (upstream_request_shape print_integer parse_hello later env_with_key
              (chat_request VUndefined) _ _ _ eq_refl)
    as [key [um [ts [Hkey [_ [Hurl [_ [_ [_ [_ [_ [_ [_ [_ Hcfg]]]]]]]]]]]]]].
  split; [reflexivity|]. split; [reflexivity|].
  rewrite Hcfg. reflexivity.
Defined.

(** X8 on a request without credential. *)
Lemma revisions_agree_until_success_witness :
  coach_chat print_integer parse_hello earlier env_without_key
    (chat_request VUndefined) = Respond missing_credential /\
  coach_chat print_integer parse_hello later env_without_key
    (chat_request VUndefined) = Respond missing_credential.
Proof.
  split; [reflexivity|].
  apply (proj1 (revisions_agree_until_success print_integer parse_hello
                  env_without_key (chat_request VUndefined))
           missing_credential).
  reflexivity.
Defined.

(** X10 on a rejected fetch and on a 200 whose body is not JSON. *)
Lemma unusable_upstream_answer_is_500_witness :
  exists url p k,
    coach_chat print_integer parse_hello earlier env_with_key
      (chat_request VUndefined) = Fetch url p k /\
    ok garbled_response = true /\
    parse_hello (rawText garbled_response) = None /\
    k Rejected = Respond unexpected_error /\
    k (Responded garbled_response) = Respond unexpected_error.
Proof.
  do 3 eexists. split; [reflexivity|]. split; [reflexivity|].
  split; [reflexivity|].
  destruct (unusable_upstream_answer_is_500 print_integer parse_hello earlier
              env_with_key (chat_request VUndefined) _ _ _ eq_refl)
    as [Hrej [Hnone _]].
  split; [exact Hrej | apply Hnone; reflexivity].
Defined.

(** X11 on a request with debug=1 and the two-part body. *)
Lemma later_reply_and_debug_witness :
  exists url p k,
    coach_chat print_integer parse_hello later env_with_key debug_request =
      Fetch url p k /\
    ok hello_response = true /\
    parse_hello (rawText hello_response) = Some hello_envelope /\
    extractReply print_integer hello_envelope = Ok (lit "Hello world") /\
    debugText print_integer debug_request = Ok (lit "1") /\
    k (Responded hello_response) =
      Respond {| code := 200;
                 sent := DebugBody (lit "Hello world") (lit "gemini-2.5-flash")
                           VNull VNull hello_envelope |}.
Proof.
  do 3 eexists. split; [reflexivity|]. split; [reflexivity|].
  split; [reflexivity|]. split; [reflexivity|]. split; [reflexivity|].
  apply (proj1 (later_reply_and_debug print_integer parse_hello env_with_key
                  debug_request _ _ _ hello_response hello_envelope
                  (lit "Hello world") eq_refl eq_refl eq_refl eq_refl)).
  reflexivity.
Defined.

(** X12 on the two-part body. *)
Lemma earlier_reply_is_untrimmed_witness :
  exists url p k,
    coach_chat print_integer parse_hello earlier env_with_key debug_request =
      Fetch url p k /\
    ok hello_response = true /\
    parse_hello (rawText hello_response) = Some hello_envelope /\
    k (Responded hello_response) =
      Respond {| code := 200; sent := ReplyBody (lit "Hello world") |}.
Proof.
  do 3 eexists. split; [reflexivity|]. split; [reflexivity|].
  split; [reflexivity|].
  apply (proj2 (earlier_reply_is_untrimmed print_integer parse_hello env_with_key
                  debug_request _ _ _ hello_response hello_envelope
                  eq_refl eq_refl eq_refl)
           [ VObject [prop "text" (str "Hello ")];
             VObject [prop "text" (str "world")] ] eq_refl).
  repeat constructor; eexists; reflexivity.
Defined.

(** X13 on a response that already has an origin header, read back in
    upper case. *)
Lemma cors_sets_headers_witness :
  toLowerCase (lit "ACCESS-CONTROL-ALLOW-ORIGIN") =
    lit "access-control-allow-origin" /\
  getHeader (lit "ACCESS-CONTROL-ALLOW-ORIGIN")
    (fst (cors (lit "OPTIONS")
            (setHeader (lit "access-control-allow-origin")
               (lit "https://example.org") []))) = Some (lit "*") /\
  snd (cors (lit "OPTIONS")
         (setHeader (lit "access-control-allow-origin")
            (lit "https://example.org") [])) = Send 204 [].
Proof.
  split; [reflexivity|]. split.
  - apply (proj1 (cors_sets_headers (lit "OPTIONS") _)). reflexivity.
  - apply (proj1 (proj2 (proj2 (proj2 (proj2
             (cors_sets_headers (lit "OPTIONS") _)))))). reflexivity.
Defined.

(** X14 on a preflight for the chat route. *)
Lemma preflight_answered_before_routes_witness :
  parsed preflight = Some (VObject []) /\
  method preflight = lit "OPTIONS" /\
  answered (app print_integer parse_hello exact_route later env_with_key
              preflight) = Plain 204 [].
Proof.
  split; [reflexivity|]. split; [reflexivity|].
  apply (proj1 (proj2 (proj2 (proj2
           (preflight_answered_before_routes print_integer parse_hello
              exact_route later env_with_key preflight (VObject [])
              eq_refl))))).
  reflexivity.
Defined.

(** X15 on a context pack, a thread and an envelope that are arrays. *)
Lemma non_objects_have_no_fields_witness :
  buildSystemBlock print_integer (VArray [str "persona"]) =
    Ok (lit "Recent matches:" ++ nl ++ nl ++ nl ++ lit "Constraints:") /\
  normalizeThread print_integer (VArray twelve_turns) = Ok [] /\
  extractReply print_integer (VArray [hello_envelope]) = Ok fallbackReply.
Proof.
  destruct (non_objects_have_no_fields print_integer (VArray [str "persona"]))
    as [H1 _]; [intros props; discriminate|].
  destruct (non_objects_have_no_fields print_integer (VArray twelve_turns))
    as [_ [H2 _]]; [intros props; discriminate|].
  destruct (non_objects_have_no_fields print_integer (VArray [hello_envelope]))
    as [_ [_ [H3 _]]]; [intros props; discriminate|].
  split; [exact H1|]. split; [exact H2 | exact H3].
Defined.
